(** * WhyHot chat server: the socket.io core of [src/server/server.js]

    A shallow embedding of the three socket handlers ([join], [getMessages],
    [sendMessage]), of the [db] helper object they go through, and of the
    parts of PostgreSQL and socket.io they rely on, followed by the
    properties of message routing and history loading.

    The server is an event-driven program: a handler submits a query and
    returns; the database runs the query later; the callback runs later
    still.  The embedding keeps these three moments apart (see [step]). *)

From stdpp Require Import base gmap sets list strings sorting pretty.
From Stdlib Require Import ZArith Lia.

Open Scope string_scope.
Open Scope Z_scope.

(** ** JavaScript values carried by the payloads

    The client sends JSON objects whose fields are strings; a field may
    also be missing ([undefined]) or [null]. *)

Inductive jsval :=
  | JUndefined
  | JNull
  | JStr (s : string).

Global Instance jsval_eq_dec : EqDecision jsval.
Proof. solve_decision. Defined.

Global Instance jsval_countable : Countable jsval.
Proof.
  refine (inj_countable'
    (λ v, match v with
          | JUndefined => inl false
          | JNull => inl true
          | JStr s => inr s
          end)
    (λ x, match x with
          | inl false => JUndefined
          | inl true => JNull
          | inr s => JStr s
          end) _).
  by intros [].
Defined.

(** ToBoolean: [undefined], [null] and the empty string are falsy. *)
Definition truthy (v : jsval) : bool :=
  match v with
  | JUndefined => false
  | JNull => false
  | JStr s => negb (String.eqb s "")
  end.

(** [a || b] *)
Definition js_or (a b : jsval) : jsval := if truthy a then a else b.

(** A destructuring default [{ x = d }]: used only when the field is
    [undefined] ([null] is kept). *)
Definition js_default (v d : jsval) : jsval :=
  match v with
  | JUndefined => d
  | _ => v
  end.

(** The text of a message is the one field the server passes on as it
    comes, so for it the other JSON scalars are kept apart: a boolean, or a
    number (an integer, in the range in which JavaScript numbers are
    exact).  Fractions, arrays and objects are not modelled. *)
Inductive jsany :=
  | JVal (v : jsval)
  | JBool (b : bool)
  | JNum (n : Z).

Coercion JVal : jsval >-> jsany.

(** ToBoolean on these: [false] and [0] are falsy as well. *)
Definition truthy_any (v : jsany) : bool :=
  match v with
  | JVal v => truthy v
  | JBool b => b
  | JNum n => negb (n =? 0)
  end.

(** [a || b] *)
Definition js_or_any (a b : jsany) : jsany := if truthy_any a then a else b.

(** node-postgres sends a boolean or a number parameter as its text. *)
Definition prepareValue (v : jsany) : jsval :=
  match v with
  | JVal v => v
  | JBool b => JStr (if b then "true" else "false")
  | JNum n => JStr (pretty n)
  end.

(** ** The [messages] table and the three queries of the core *)

(** A column value: [None] is SQL NULL. *)
Abbreviation sqlval := (option string).

Record row := Row {
  id : Z;
  text : sqlval;
  sender_username : sqlval;
  receiver_username : sqlval;
  timestamp : sqlval;
  type : sqlval;
  file_url : sqlval
}.

Global Instance row_eq_dec : EqDecision row.
Proof. solve_decision. Defined.

(** The table (in heap order) and its [SERIAL] sequence (next value). *)
Record database := Database {
  messages : list row;
  messages_id_seq : Z
}.

(** node-postgres sends [undefined] and [null] parameters as NULL. *)
Definition to_sql (v : jsval) : sqlval :=
  match v with
  | JStr s => Some s
  | _ => None
  end.


(** [$i] (1-based) of a parameter array; a missing entry is [undefined]. *)
Definition param (params : list jsval) (i : nat) : sqlval :=
  to_sql (default JUndefined (params !! pred i)).

(** SQL's three-valued logic: [None] is UNKNOWN. *)
Abbreviation tri := (option bool).

Definition sql_eq (a b : sqlval) : tri :=
  match a, b with
  | Some x, Some y => Some (bool_decide (x = y))
  | _, _ => None
  end.

Definition sql_and (a b : tri) : tri :=
  match a, b with
  | Some false, _ | _, Some false => Some false
  | Some true, Some true => Some true
  | _, _ => None
  end.

Definition sql_or (a b : tri) : tri :=
  match a, b with
  | Some true, _ | _, Some true => Some true
  | Some false, Some false => Some false
  | _, _ => None
  end.

Definition sql_is_null (a : sqlval) : tri :=
  Some (bool_decide (a = None)).

(** WHERE keeps a row only when the condition is TRUE. *)
Definition is_true (t : tri) : bool :=
  match t with
  | Some true => true
  | _ => false
  end.

(** The SQL texts of the handlers. *)
Inductive sql :=
  | SELECT_global   (* SELECT * FROM messages WHERE receiver_username IS NULL
                       ORDER BY id ASC *)
  | SELECT_direct   (* SELECT * FROM messages
                       WHERE (sender_username = $1 AND receiver_username = $2)
                          OR (sender_username = $3 AND receiver_username = $4)
                       ORDER BY id ASC *)
  | INSERT_message. (* INSERT INTO messages (text, sender_username,
                       receiver_username, timestamp, type, file_url)
                       VALUES ($1, $2, $3, $4, $5, $6) RETURNING id *)

Definition where_global (r : row) : tri :=
  sql_is_null (receiver_username r).

Definition where_direct (params : list jsval) (r : row) : tri :=
  sql_or
    (sql_and (sql_eq (sender_username r) (param params 1))
             (sql_eq (receiver_username r) (param params 2)))
    (sql_and (sql_eq (sender_username r) (param params 3))
             (sql_eq (receiver_username r) (param params 4))).

Definition id_le (r1 r2 : row) : Prop := id r1 ≤ id r2.

Global Instance id_le_dec : RelDecision id_le.
Proof. intros r1 r2. unfold id_le. apply _. Defined.

Global Instance id_le_total : Total id_le.
Proof. intros r1 r2. unfold id_le. lia. Qed.

Global Instance id_le_trans : Transitive id_le.
Proof. intros r1 r2 r3. unfold id_le. lia. Qed.

(** [ORDER BY id ASC] *)
Definition order_by_id (l : list row) : list row := merge_sort id_le l.

Definition select_where (cond : row → tri) (tbl : list row) : list row :=
  order_by_id (filter (λ r, is_true (cond r) = true) tbl).

(** A row object of a driver result: a full [messages] row ([SELECT *])
    or the [id] alone ([RETURNING id]). *)
Inductive rowobj :=
  | MessageRow (r : row)
  | IdRow (i : Z).

Definition rowobj_id (o : rowobj) : Z :=
  match o with
  | MessageRow r => id r
  | IdRow i => i
  end.

Record result := Result { rows : list rowobj }.

Abbreviation error := string.

(** The row [INSERT_message] builds from its six parameters. *)
Definition inserted_row (i : Z) (params : list jsval) : row :=
  {| id := i;
     text := param params 1;
     sender_username := param params 2;
     receiver_username := param params 3;
     timestamp := param params 4;
     type := param params 5;
     file_url := param params 6 |}.

(** Running a statement.  [fault] is the environment's choice: [Some e]
    makes the statement fail with [e] while the database runs it.  A
    failed statement leaves the table as it was (the gateway's contract: an
    insert either yields the generated id or fails), but a failed INSERT
    has drawn its id by then, and a sequence is not rolled back: the id is
    lost.  The result is the pair [(err, res)] handed to the callback of
    [pool.query]. *)
Definition pool_query (q : sql) (params : list jsval) (fault : option error)
    (db : database) : database * (option error * option result) :=
  match fault with
  | Some e =>
      match q with
      | INSERT_message =>
          ({| messages := messages db;
              messages_id_seq := messages_id_seq db + 1 |},
           (Some e, None))
      | _ => (db, (Some e, None))
      end
  | None =>
      match q with
      | SELECT_global =>
          (db, (None, Some (Result
             (MessageRow <$> select_where where_global (messages db)))))
      | SELECT_direct =>
          (db, (None, Some (Result
             (MessageRow <$> select_where (where_direct params) (messages db)))))
      | INSERT_message =>
          let i := messages_id_seq db in
          ({| messages := messages db ++ [inserted_row i params];
              messages_id_seq := i + 1 |},
           (None, Some (Result [IdRow i])))
      end
  end.

(** ** The server's clock *)

Record Date := mkDate {
  getHours : nat;
  getMinutes : nat;
  getSeconds : nat
}.

(** The fields of the options object of [toLocaleTimeString]; each is
    either absent or ['2-digit']. *)
Inductive field_style := two_digit_style.

Record time_options := TimeOptions {
  hour : option field_style;
  minute : option field_style;
  second : option field_style
}.

Definition digit (n : nat) : string :=
  String (Ascii.ascii_of_nat (48 + n)) "".

Definition two_digit (n : nat) : string :=
  digit (n / 10) +:+ digit (n mod 10).

Definition time_field (o : option field_style) (n : nat) : list string :=
  match o with
  | Some two_digit_style => [two_digit n]
  | None => []
  end.

(** Modelled from the spec: [Date.prototype.toLocaleTimeString] belongs to
    the JavaScript runtime, not to the repository.  The spec calls its
    output the local display format hour:minute; this is that format for a
    24-hour locale: the requested fields, two digits each, joined by a
    colon. *)
Definition toLocaleTimeString (d : Date) (o : time_options) : string :=
  String.concat ":"
    (time_field (hour o) (getHours d) ++
     time_field (minute o) (getMinutes d) ++
     time_field (second o) (getSeconds d)).

(** ** Payloads, messages and what the server emits *)

(** The object a client passes to [sendMessage].  A missing field is
    [undefined].  [data_timestamp] stands for a field the handler does not
    destructure. *)
Record send_data := SendData {
  data_text : jsany;
  data_sender_username : jsval;
  data_receiver_username : jsval;
  data_type : jsval;
  data_file_url : jsval;
  data_timestamp : jsval
}.

(** The object literal [newMessage]. *)
Record message := Message {
  msg_id : option Z;
  msg_text : jsany;
  msg_sender_username : jsval;
  msg_receiver_username : jsval;
  msg_timestamp : string;
  msg_type : jsval;
  msg_file_url : jsval
}.

(** Connections (socket.io sockets) are named by numbers.  socket.io also
    puts every socket in a private room named by its own random id; these
    ids are taken to be no username, and the private rooms are left out. *)
Abbreviation sid := nat.

Inductive body :=
  | History (l : list rowobj)
  | NewMessage (m : message).

(** An observable action of the server: a packet written to one
    connection, or a line on the server's error log. *)
Inductive effect :=
  | Packet (to : sid) (event : string) (b : body)
  | ConsoleError (e : error).

(** ** In-flight queries

    The two callbacks of the core, as closures over the variables they
    capture. *)
Inductive callback :=
  | getMessages_cb (socket : sid)
  | sendMessage_cb (text : jsany) (sender_username receiver_username : jsval)
      (timestamp : string) (type file_url : jsval).

(** A call of [pool.query] that has not called back yet; [q_reply] is
    filled in when the database has run the statement. *)
Record query := Query {
  q_sql : sql;
  q_params : list jsval;
  q_callback : callback;
  q_reply : option (option error * option result)
}.

(** ** The state of the world: socket.io's adapter, the database, and
    the queries in flight *)

Record world := World {
  sockets : gset sid;                 (* connected sockets of the namespace *)
  rooms : gmap jsval (gset sid);      (* adapter: room -> members *)
  username : gmap sid jsval;          (* the property [socket.username] *)
  db : database;
  inflight : gmap nat query;
  next_query : nat
}.

Definition init : world :=
  {| sockets := ∅; rooms := ∅; username := ∅;
     db := {| messages := []; messages_id_seq := 1 |};
     inflight := ∅; next_query := 0%nat |}.

(** The members of a room; a room nobody joined is empty.  This is the
    registry's [connectionsFor]. *)
Definition connectionsFor (w : world) (room : jsval) : gset sid :=
  default ∅ (rooms w !! room).

(** [socket.join(room)] *)
Definition socket_join (c : sid) (room : jsval) (w : world) : world :=
  {| sockets := sockets w;
     rooms := <[room := {[c]} ∪ connectionsFor w room]> (rooms w);
     username := username w;
     db := db w; inflight := inflight w; next_query := next_query w |}.

(** [socket.emit(event, b)]: a packet to that socket alone; the transport
    drops it when the socket is gone. *)
Definition socket_emit (w : world) (c : sid) (event : string) (b : body)
    : list effect :=
  if bool_decide (c ∈ sockets w) then [Packet c event b] else [].

(** [io.emit(event, b)]: every connected socket of the namespace. *)
Definition io_emit (w : world) (event : string) (b : body) : list effect :=
  (λ c, Packet c event b) <$> elements (sockets w).

(** [io.to(r1).to(r2).emit(event, b)]: the union of the two rooms, each
    member once. *)
Definition io_to_to_emit (w : world) (r1 r2 : jsval) (event : string)
    (b : body) : list effect :=
  (λ c, Packet c event b) <$> elements (connectionsFor w r1 ∪ connectionsFor w r2).

(** [pool.query(sql, params, cb)]: the statement is handed over, nothing
    else happens now. *)
Definition submit (q : sql) (params : list jsval) (cb : callback) (w : world)
    : world :=
  {| sockets := sockets w; rooms := rooms w; username := username w;
     db := db w;
     inflight := <[next_query w := Query q params cb None]> (inflight w);
     next_query := S (next_query w) |}.

(** ** The [db] helper object *)

(** [db.run]: the callback gets [(err, { lastID: res?.rows?.[0]?.id })]. *)
Definition db_run_lastID (res : option result) : option Z :=
  res ≫= λ r, rowobj_id <$> head (rows r).

(** [db.all]: the callback gets [(err, res?.rows || [])]. *)
Definition db_all_rows (res : option result) : list rowobj :=
  match res with
  | Some r => rows r
  | None => []
  end.

(** ** The socket handlers *)

(** [socket.on('join', (username) => ...)] *)
Definition on_join (c : sid) (u : jsval) (w : world) : world :=
  let w' := socket_join c u w in
  {| sockets := sockets w'; rooms := rooms w';
     username := <[c := u]> (username w');
     db := db w'; inflight := inflight w'; next_query := next_query w' |}.

(** [socket.on('getMessages', ({ type, mate, me }) => ...)], up to the call
    of [db.all]. *)
Definition getMessages_query (type mate me : jsval) : sql * list jsval :=
  if bool_decide (type = JStr "global")
  then (SELECT_global, [])
  else (SELECT_direct, [me; mate; mate; me]).

Definition on_getMessages (c : sid) (type mate me : jsval) (w : world) : world :=
  let '(q, params) := getMessages_query type mate me in
  submit q params (getMessages_cb c) w.

(** The callback of [getMessages]:
    [(err, rows) => { if (!err) socket.emit('history', rows); }] *)
Definition getMessages_callback (w : world) (socket : sid)
    (err : option error) (rows : list rowobj) : list effect :=
  match err with
  | None => socket_emit w socket "history" (History rows)
  | Some _ => []
  end.

(** [socket.on('sendMessage', (data) => ...)], up to the call of [db.run]. *)
Definition on_sendMessage (data : send_data) (now : Date) (w : world) : world :=
  let text := data_text data in
  let sender_username := data_sender_username data in
  let receiver_username := data_receiver_username data in
  let type := js_default (data_type data) (JStr "text") in
  let file_url := js_default (data_file_url data) JNull in
  let timestamp :=
    toLocaleTimeString now
      {| hour := Some two_digit_style; minute := Some two_digit_style;
         second := None |} in
  submit INSERT_message
    [prepareValue (js_or_any text (JStr "")); sender_username;
     js_or receiver_username JNull;
     JStr timestamp; type; file_url]
    (sendMessage_cb text sender_username receiver_username timestamp type file_url)
    w.

(** The callback of [sendMessage]: [function(err, result) { ... }] *)
Definition sendMessage_callback (w : world)
    (text : jsany) (sender_username receiver_username : jsval)
    (timestamp : string)
    (type file_url : jsval) (err : option error) (lastID : option Z)
    : list effect :=
  match err with
  | Some e => [ConsoleError e]
  | None =>
      let newMessage :=
        {| msg_id := lastID;
           msg_text := text;
           msg_sender_username := sender_username;
           msg_receiver_username := receiver_username;
           msg_timestamp := timestamp;
           msg_type := type;
           msg_file_url := file_url |} in
      if negb (truthy receiver_username)
      then io_emit w "receiveMessage" (NewMessage newMessage)
      else io_to_to_emit w receiver_username sender_username
             "receiveMessage" (NewMessage newMessage)
  end.

(** What [pool.query] does when the reply arrives: it calls the wrapper
    of [db.all] or [db.run], which calls the handler's callback. *)
Definition invoke (w : world) (cb : callback)
    (reply : option error * option result) : list effect :=
  let '(err, res) := reply in
  match cb with
  | getMessages_cb socket =>
      getMessages_callback w socket err (db_all_rows res)
  | sendMessage_cb text sender_username receiver_username timestamp type file_url =>
      sendMessage_callback w text sender_username receiver_username timestamp
        type file_url err (db_run_lastID res)
  end.

(** ** The event loop *)

(** What can happen next: a transport event, the database running a
    statement in flight ([fault] says whether it fails), a reply reaching
    its callback, or a query failing before the database has run its
    statement (the pool gets no connection, the connection breaks). *)
Inductive event :=
  | Connection (c : sid)
  | Disconnect (c : sid)
  | Join (c : sid) (u : jsval)
  | GetMessages (c : sid) (type mate me : jsval)
  | SendMessage (c : sid) (data : send_data) (now : Date)
  | PgExec (k : nat) (fault : option error)
  | PgReply (k : nat)
  | PgLost (k : nat) (e : error).

(** [io.on('connection', (socket) => ...)]: the socket is now part of the
    namespace and its three handlers are installed. *)
Definition connect (c : sid) (w : world) : world :=
  {| sockets := {[c]} ∪ sockets w; rooms := rooms w; username := username w;
     db := db w; inflight := inflight w; next_query := next_query w |}.

(** Transport teardown: socket.io takes the socket out of every room. *)
Definition disconnect (c : sid) (w : world) : world :=
  {| sockets := sockets w ∖ {[c]};
     rooms := (λ members, members ∖ {[c]}) <$> rooms w;
     username := delete c (username w);
     db := db w; inflight := inflight w; next_query := next_query w |}.

(** The database runs the statement of [q] and keeps the reply for it. *)
Definition exec (k : nat) (q : query) (fault : option error) (w : world)
    : world :=
  let '(d, reply) := pool_query (q_sql q) (q_params q) fault (db w) in
  {| sockets := sockets w; rooms := rooms w; username := username w;
     db := d;
     inflight :=
       <[k := Query (q_sql q) (q_params q) (q_callback q) (Some reply)]>
         (inflight w);
     next_query := next_query w |}.

(** The query fails without the database having run its statement. *)
Definition lose (k : nat) (q : query) (e : error) (w : world) : world :=
  {| sockets := sockets w; rooms := rooms w; username := username w;
     db := db w;
     inflight :=
       <[k := Query (q_sql q) (q_params q) (q_callback q) (Some (Some e, None))]>
         (inflight w);
     next_query := next_query w |}.

Definition retire (k : nat) (w : world) : world :=
  {| sockets := sockets w; rooms := rooms w; username := username w;
     db := db w; inflight := delete k (inflight w);
     next_query := next_query w |}.

(** One turn of the event loop.  Handlers exist only on connected
    sockets, so an event named after another socket does nothing. *)
Definition step (w : world) (e : event) : world * list effect :=
  match e with
  | Connection c => (connect c w, [])
  | Disconnect c => (disconnect c w, [])
  | Join c u =>
      if bool_decide (c ∈ sockets w) then (on_join c u w, []) else (w, [])
  | GetMessages c type mate me =>
      if bool_decide (c ∈ sockets w)
      then (on_getMessages c type mate me w, [])
      else (w, [])
  | SendMessage c data now =>
      if bool_decide (c ∈ sockets w)
      then (on_sendMessage data now w, [])
      else (w, [])
  | PgExec k fault =>
      match inflight w !! k with
      | Some q =>
          match q_reply q with
          | None => (exec k q fault w, [])
          | Some _ => (w, [])
          end
      | None => (w, [])
      end
  | PgReply k =>
      match inflight w !! k with
      | Some q =>
          match q_reply q with
          | Some reply => (retire k w, invoke w (q_callback q) reply)
          | None => (w, [])
          end
      | None => (w, [])
      end
  | PgLost k e =>
      match inflight w !! k with
      | Some q =>
          match q_reply q with
          | None => (lose k q e w, [])
          | Some _ => (w, [])
          end
      | None => (w, [])
      end
  end.

(** A run: the final world and everything emitted, in order. *)
Fixpoint run (w : world) (evs : list event) : world * list effect :=
  match evs with
  | [] => (w, [])
  | e :: evs' =>
      let '(w1, out1) := step w e in
      let '(w2, out2) := run w1 evs' in
      (w2, (out1 ++ out2)%list)
  end.

(** ** Reading a list of effects *)

Definition packet_to (event : string) (e : effect) : option sid :=
  match e with
  | Packet c ev _ => if bool_decide (ev = event) then Some c else None
  | ConsoleError _ => None
  end.

(** The connections a list of effects delivers [event] to. *)
Definition recipients (event : string) (out : list effect) : gset sid :=
  list_to_set (omap (packet_to event) out).

(** The live connections in the glossary's sense: connected sockets that
    have been given a username by a join. *)
Definition live_connections (w : world) : gset sid :=
  filter (λ c, is_Some (username w !! c)) (sockets w).

(** The condition of the direct-scope history, in the spec's words. *)
Definition between (a b : string) (r : row) : Prop :=
  (sender_username r = Some a ∧ receiver_username r = Some b) ∨
  (sender_username r = Some b ∧ receiver_username r = Some a).

Global Instance between_dec a b r : Decision (between a b r).
Proof. unfold between. apply _. Defined.

(** ** Derived notions used by the statements *)

(** The rows a history request gets back when its query succeeds on the
    database [d]. *)
Definition history_rows (type mate me : jsval) (d : database) : list rowobj :=
  db_all_rows
    (pool_query (getMessages_query type mate me).1
       (getMessages_query type mate me).2 None d).2.2.

(** What holds of every query in flight: the callback of a sendMessage
    belongs to the insert of its own captured values, and once that insert
    has been answered without error, its row is in the table under the id
    the answer carries. *)
Definition persisted_before (tbl : list row) (q : query) : Prop :=
  match q_callback q with
  | sendMessage_cb text s r ts ty f =>
      q_sql q = INSERT_message ∧
      q_params q =
        [prepareValue (js_or_any text (JStr "")); s; js_or r JNull; JStr ts;
         ty; f] ∧
      ∀ res, q_reply q = Some (None, res) →
        ∃ i, db_run_lastID res = Some i ∧ inserted_row i (q_params q) ∈ tbl
  | getMessages_cb _ => True
  end.

(** The invariant of the event loop. *)
Definition inflight_ok (w : world) : Prop :=
  ∀ k q, inflight w !! k = Some q → persisted_before (messages (db w)) q.

(** The packets among a list of effects (the log lines left out). *)
Definition packets_of (out : list effect) : list (sid * string * body) :=
  omap (λ e, match e with
             | Packet c ev b => Some (c, ev, b)
             | ConsoleError _ => None
             end) out.

(** The query [k] is the insert of a sendMessage that has failed with [e]
    and whose reply has not reached its callback yet. *)
Definition failed_insert (w : world) (k : nat) (e : error) : Prop :=
  ∃ q text s r ts ty f,
    inflight w !! k = Some q ∧
    q_callback q = sendMessage_cb text s r ts ty f ∧
    q_reply q = Some (Some e, None).

(** [b] is [a] without the failed insert [k], or [a] itself once the
    reply of [k] has come. *)
Definition without_failed (k : nat) (e : error) (a b : world) : Prop :=
  a = b ∨ (failed_insert a k e ∧ b = retire k a).

(** The registry in the spec's words, read off the history of events
    ([past] has the latest event first): a connection is connected if it
    has opened and not closed since; it is registered under a username if,
    since it last opened, it has issued a join with that username. *)
Fixpoint connected_after (past : list event) (c : sid) : bool :=
  match past with
  | [] => false
  | Connection c' :: past' => bool_decide (c = c') || connected_after past' c
  | Disconnect c' :: past' => negb (bool_decide (c = c')) && connected_after past' c
  | _ :: past' => connected_after past' c
  end.

Fixpoint registered_after (past : list event) (c : sid) (u : jsval) : bool :=
  match past with
  | [] => false
  | Disconnect c' :: past' =>
      negb (bool_decide (c = c')) && registered_after past' c u
  | Join c' u' :: past' =>
      (bool_decide (c = c') && bool_decide (u = u') && connected_after past' c)
      || registered_after past' c u
  | _ :: past' => registered_after past' c u
  end.

(** [SERIAL PRIMARY KEY]: what the sequence guarantees of the table, in
    insertion order. *)
Definition id_lt (r1 r2 : row) : Prop := id r1 < id r2.

Definition serial_ok (d : database) : Prop :=
  StronglySorted id_lt (messages d) ∧
  Forall (λ r, id r < messages_id_seq d) (messages d).

(** [socket.username], when set, names a room the socket is in. *)
Definition username_ok (w : world) : Prop :=
  ∀ c u, username w !! c = Some u → c ∈ sockets w ∧ c ∈ connectionsFor w u.

(** ** The HTTP routes: the [users] and [friends] tables

    The same conventions as for the socket payloads: a field of a request
    body is a string, missing ([undefined]) or [null].  The [id] columns
    of these two tables are never read by the server and are left out;
    the rows are kept in heap order. *)

Definition default_avatar : string :=
  "https://cdn-icons-png.flaticon.com/512/149/149071.png".

Record user := User {
  u_username : sqlval;      (* TEXT UNIQUE *)
  u_password : sqlval;
  u_avatar_url : sqlval     (* DEFAULT [default_avatar] *)
}.

Record friendship := Friendship {
  f_user_username : sqlval;
  f_friend_username : sqlval;
  f_status : sqlval         (* UNIQUE(user_username, friend_username) *)
}.

Global Instance user_eq_dec : EqDecision user.
Proof. solve_decision. Defined.

Global Instance friendship_eq_dec : EqDecision friendship.
Proof. solve_decision. Defined.

Record store := Store {
  users : list user;
  friends : list friendship;
  msgs : database
}.

(** [UNIQUE]: no two rows agree on the key; a key with a NULL in it
    conflicts with nothing. *)
Definition users_unique (us : list user) : Prop :=
  NoDup (omap u_username us).

Definition friend_key (f : friendship) : option (string * string) :=
  match f_user_username f, f_friend_username f with
  | Some a, Some b => Some (a, b)
  | _, _ => None
  end.

Definition friends_unique (fs : list friendship) : Prop :=
  NoDup (omap friend_key fs).

Definition unique_violation : error :=
  "duplicate key value violates unique constraint".

(** A write to a table with a uniqueness constraint [ok]: it fails as a
    whole, leaving the table as it was, when the environment makes it fail
    ([fault]) or when the table it would produce breaks the constraint. *)
Definition checked {A} (ok : list A → Prop) `{∀ l, Decision (ok l)}
    (fault : option error) (old new : list A) : list A * option error :=
  match fault with
  | Some e => (old, Some e)
  | None => if decide (ok new) then (new, None) else (old, Some unique_violation)
  end.

(** [INSERT INTO users (username, password) VALUES ($1, $2)] *)
Definition insert_user (username password : sqlval) (fault : option error)
    (us : list user) : list user * option error :=
  checked users_unique fault us
    (us ++ [User username password (Some default_avatar)]).

(** The rows of [... FROM users WHERE username = $1]. *)
Definition select_user (username : sqlval) (us : list user) : list user :=
  filter (λ u, is_true (sql_eq (u_username u) username) = true) us.

(** [UPDATE users SET username = $1, avatar_url = $2 WHERE username = $3] *)
Definition profile_row (username avatar_url current : sqlval) (u : user) : user :=
  if is_true (sql_eq (u_username u) current)
  then User username (u_password u) avatar_url
  else u.

Definition update_user (username avatar_url current : sqlval)
    (fault : option error) (us : list user) : list user * option error :=
  checked users_unique fault us (profile_row username avatar_url current <$> us).

(** [INSERT INTO friends (user_username, friend_username, status)
     VALUES ($1, $2, status)] *)
Definition insert_friend (user friend : sqlval) (status : string)
    (fault : option error) (fs : list friendship)
    : list friendship * option error :=
  checked friends_unique fault fs
    (fs ++ [Friendship user friend (Some status)]).

(** The same with [ON CONFLICT DO NOTHING]: a conflict is no error. *)
Definition insert_friend_do_nothing (user friend : sqlval) (status : string)
    (fault : option error) (fs : list friendship)
    : list friendship * option error :=
  match fault with
  | Some e => (fs, Some e)
  | None =>
      if decide (friends_unique (fs ++ [Friendship user friend (Some status)])%list)
      then ((fs ++ [Friendship user friend (Some status)])%list, None)
      else (fs, None)
  end.

Definition friend_row_is (user friend : sqlval) (f : friendship) : bool :=
  is_true (sql_and (sql_eq (f_user_username f) user)
                   (sql_eq (f_friend_username f) friend)).

(** [UPDATE friends SET status = 'accepted'
     WHERE user_username = $1 AND friend_username = $2] *)
Definition accept_row (user friend : sqlval) (f : friendship) : friendship :=
  if friend_row_is user friend f
  then Friendship (f_user_username f) (f_friend_username f) (Some "accepted")
  else f.

Definition update_friend_accepted (user friend : sqlval)
    (fault : option error) (fs : list friendship)
    : list friendship * option error :=
  match fault with
  | Some e => (fs, Some e)
  | None => (accept_row user friend <$> fs, None)
  end.

(** [DELETE FROM friends WHERE user_username = $1 AND friend_username = $2] *)
Definition delete_friend (user friend : sqlval) (fault : option error)
    (fs : list friendship) : list friendship * option error :=
  match fault with
  | Some e => (fs, Some e)
  | None => (filter (λ f, friend_row_is user friend f = false) fs, None)
  end.

(** [SELECT u.username, u.avatar_url FROM friends f
     JOIN users u ON f.friend_username = u.username
     WHERE f.user_username = $1 AND f.status = 'accepted'] *)
Definition select_friends (user : sqlval) (st : store)
    : list (sqlval * sqlval) :=
  f ← friends st;
  if is_true (sql_and (sql_eq (f_user_username f) user)
                      (sql_eq (f_status f) (Some "accepted")))
  then u ← users st;
       if is_true (sql_eq (f_friend_username f) (u_username u))
       then [(u_username u, u_avatar_url u)] else []
  else [].

(** [SELECT u.username, u.avatar_url FROM friends f
     JOIN users u ON f.user_username = u.username
     WHERE f.friend_username = $1 AND f.status = 'pending'] *)
Definition select_requests (user : sqlval) (st : store)
    : list (sqlval * sqlval) :=
  f ← friends st;
  if is_true (sql_and (sql_eq (f_friend_username f) user)
                      (sql_eq (f_status f) (Some "pending")))
  then u ← users st;
       if is_true (sql_eq (f_user_username f) (u_username u))
       then [(u_username u, u_avatar_url u)] else []
  else [].

(** The four statements of the rename cascade and the second statement of
    an accept are issued without a callback: the server neither waits for
    them nor sees their errors. *)
Inductive statement :=
  | INSERT_friend_accepted (user friend : sqlval)
      (* INSERT INTO friends ... VALUES ($1, $2, 'accepted')
         ON CONFLICT DO NOTHING *)
  | UPDATE_messages_sender (new old : sqlval)
      (* UPDATE messages SET sender_username = $1 WHERE sender_username = $2 *)
  | UPDATE_messages_receiver (new old : sqlval)
      (* UPDATE messages SET receiver_username = $1 WHERE receiver_username = $2 *)
  | UPDATE_friends_user (new old : sqlval)
      (* UPDATE friends SET user_username = $1 WHERE user_username = $2 *)
  | UPDATE_friends_friend (new old : sqlval).
      (* UPDATE friends SET friend_username = $1 WHERE friend_username = $2 *)

Global Instance statement_eq_dec : EqDecision statement.
Proof. solve_decision. Defined.

Definition rename_sender (new old : sqlval) (r : row) : row :=
  if is_true (sql_eq (sender_username r) old)
  then Row (id r) (text r) new (receiver_username r) (timestamp r) (type r)
         (file_url r)
  else r.

Definition rename_receiver (new old : sqlval) (r : row) : row :=
  if is_true (sql_eq (receiver_username r) old)
  then Row (id r) (text r) (sender_username r) new (timestamp r) (type r)
         (file_url r)
  else r.

Definition rename_friend_user (new old : sqlval) (f : friendship) : friendship :=
  if is_true (sql_eq (f_user_username f) old)
  then Friendship new (f_friend_username f) (f_status f)
  else f.

Definition rename_friend_friend (new old : sqlval) (f : friendship) : friendship :=
  if is_true (sql_eq (f_friend_username f) old)
  then Friendship (f_user_username f) new (f_status f)
  else f.

(** Running one of these statements; its error, if any, goes nowhere. *)
Definition run_statement (s : statement) (fault : option error) (st : store)
    : store :=
  match s with
  | INSERT_friend_accepted user friend =>
      Store (users st)
        (insert_friend_do_nothing user friend "accepted" fault (friends st)).1
        (msgs st)
  | UPDATE_messages_sender new old =>
      match fault with
      | Some _ => st
      | None =>
          Store (users st) (friends st)
            (Database (rename_sender new old <$> messages (msgs st))
               (messages_id_seq (msgs st)))
      end
  | UPDATE_messages_receiver new old =>
      match fault with
      | Some _ => st
      | None =>
          Store (users st) (friends st)
            (Database (rename_receiver new old <$> messages (msgs st))
               (messages_id_seq (msgs st)))
      end
  | UPDATE_friends_user new old =>
      Store (users st)
        (checked friends_unique fault (friends st)
           (rename_friend_user new old <$> friends st)).1
        (msgs st)
  | UPDATE_friends_friend new old =>
      Store (users st)
        (checked friends_unique fault (friends st)
           (rename_friend_friend new old <$> friends st)).1
        (msgs st)
  end.

(** Running issued statements one after the other, each with the
    environment's choice of failure. *)
Definition run_statements (st : store) (sched : list (statement * option error))
    : store :=
  foldl (λ st sf, run_statement sf.1 sf.2 st) st sched.

(** What the cascade of a rename does to one name and to one message once
    both [UPDATE messages] statements have run. *)
Definition rename_name (new old : sqlval) (v : sqlval) : sqlval :=
  if is_true (sql_eq v old) then new else v.

Definition names_mapped (fs fr : sqlval → sqlval) (r : row) : row :=
  Row (id r) (text r) (fs (sender_username r)) (fr (receiver_username r))
    (timestamp r) (type r) (file_url r).

Definition rename_message (new old : sqlval) : row → row :=
  names_mapped (rename_name new old) (rename_name new old).

(** The four statements of the cascade, as [put_user_profile] issues
    them. *)
Definition cascade (new old : sqlval) : list statement :=
  [UPDATE_messages_sender new old; UPDATE_messages_receiver new old;
   UPDATE_friends_user new old; UPDATE_friends_friend new old].

Definition is_sender_update (s : statement) : bool :=
  match s with UPDATE_messages_sender _ _ => true | _ => false end.

Definition is_receiver_update (s : statement) : bool :=
  match s with UPDATE_messages_receiver _ _ => true | _ => false end.

(** Whether a statement of the given kind has run without failing. *)
Definition has_run (kind : statement → bool)
    (sched : list (statement * option error)) : bool :=
  existsb (λ sf, kind sf.1 && bool_decide (sf.2 = None)) sched.

(** The columns of a message that are no username. *)
Definition message_content (r : row)
    : Z * sqlval * sqlval * sqlval * sqlval :=
  (id r, text r, timestamp r, type r, file_url r).

(** *** Responses *)

Inductive json :=
  | J_error (error : string)                    (* { error } *)
  | J_registered (username : jsval)             (* { success: true, username } *)
  | J_user (username avatar_url : sqlval)       (* { username, avatar_url } *)
  | J_logged_in (username avatar_url : sqlval)  (* { success: true, username,
                                                     avatar_url } *)
  | J_done                                      (* { success: true } *)
  | J_result (success : bool) (message : string)(* { success, message } *)
  | J_rows (l : list (sqlval * sqlval))         (* [{ username, avatar_url }] *)
  | J_profile (username avatar_url : jsval).    (* { success: true, username,
                                                     avatar_url } *)

Record response := Response { status : nat; payload : json }.

(** *** The route handlers

    Each handler is given with the outcome of its first statement: that
    statement runs at one moment, and its callback only answers the
    request and, for two routes, issues further statements ([statement]
    above), which are returned as a list and run later, in any order. *)

(** [app.post('/register', ...)].  [hashedPassword] is what
    [bcrypt.hash(password, 10)] resolves to; on a string it does not
    reject, so the [catch] branch is not taken. *)
Definition register (username password : jsval) (hashedPassword : string)
    (fault : option error) (st : store) : store * response :=
  if negb (truthy username) || negb (truthy password)
  then (st, Response 400 (J_error "Заполните все поля"))
  else
    let '(us, err) :=
      insert_user (to_sql username) (Some hashedPassword) fault (users st) in
    match err with
    | Some _ =>
        (Store us (friends st) (msgs st),
         Response 400 (J_error "Пользователь уже существует"))
    | None =>
        (Store us (friends st) (msgs st), Response 200 (J_registered username))
    end.

(** [db.get]: the callback gets [(err, res?.rows[0])]. *)
Definition db_get {A} (fault : option error) (rows : list A)
    : option error * option A :=
  match fault with
  | Some e => (Some e, None)
  | None => (None, head rows)
  end.

(** [app.post('/login', ...)].  [compare] is what
    [await bcrypt.compare(password, user.password)] yields: [None] when
    the promise rejects; the rejection is handled nowhere, so the request
    is then never answered ([None]). *)
Definition login (compare : jsval → sqlval → option bool)
    (username password : jsval) (fault : option error) (st : store)
    : option response :=
  match db_get fault (select_user (to_sql username) (users st)) with
  | (Some _, _) | (None, None) =>
      Some (Response 400 (J_error "Пользователь не найден"))
  | (None, Some u) =>
      match compare password (u_password u) with
      | Some true =>
          Some (Response 200 (J_logged_in (u_username u) (u_avatar_url u)))
      | Some false => Some (Response 400 (J_error "Неверный пароль"))
      | None => None
      end
  end.

(** [app.get('/user/:username', ...)] *)
Definition get_user (username : string) (fault : option error) (st : store)
    : response :=
  match db_get fault (select_user (Some username) (users st)) with
  | (Some _, _) | (None, None) => Response 404 (J_error "Not found")
  | (None, Some u) => Response 200 (J_user (u_username u) (u_avatar_url u))
  end.

(** [app.post('/friends', ...)] *)
Definition post_friends (user friend : jsval) (fault : option error)
    (st : store) : store * response :=
  if bool_decide (user = friend)
  then (st, Response 200 (J_result false "Нельзя добавить самого себя"))
  else
    let '(fs, err) :=
      insert_friend (to_sql user) (to_sql friend) "pending" fault (friends st) in
    match err with
    | Some _ =>
        (Store (users st) fs (msgs st),
         Response 200 (J_result false "Запрос уже отправлен"))
    | None =>
        (Store (users st) fs (msgs st),
         Response 200 (J_result true "Запрос отправлен"))
    end.

(** [app.put('/friends/respond', ...)] *)
Definition put_friends_respond (user friend action : jsval)
    (fault : option error) (st : store) : store * response * list statement :=
  if bool_decide (action = JStr "accept")
  then
    let '(fs, err) :=
      update_friend_accepted (to_sql friend) (to_sql user) fault (friends st) in
    match err with
    | Some e => (Store (users st) fs (msgs st), Response 500 (J_error e), [])
    | None =>
        (Store (users st) fs (msgs st), Response 200 J_done,
         [INSERT_friend_accepted (to_sql user) (to_sql friend)])
    end
  else
    let '(fs, _) :=
      delete_friend (to_sql friend) (to_sql user) fault (friends st) in
    (Store (users st) fs (msgs st), Response 200 J_done, []).

(** [app.get('/friends', ...)] and [app.get('/friends/requests', ...)] *)
Definition get_friends (user : jsval) (fault : option error) (st : store)
    : response :=
  match fault with
  | Some e => Response 500 (J_error e)
  | None => Response 200 (J_rows (select_friends (to_sql user) st))
  end.

Definition get_friends_requests (user : jsval) (fault : option error)
    (st : store) : response :=
  match fault with
  | Some e => Response 500 (J_error e)
  | None => Response 200 (J_rows (select_requests (to_sql user) st))
  end.

(** [app.put('/user/profile', ...)] *)
Definition put_user_profile (currentUsername newUsername newAvatar : jsval)
    (fault : option error) (st : store) : store * response * list statement :=
  let newUsername := js_or newUsername currentUsername in
  let '(us, err) :=
    update_user (to_sql newUsername) (to_sql newAvatar) (to_sql currentUsername)
      fault (users st) in
  match err with
  | Some _ =>
      (Store us (friends st) (msgs st),
       Response 400 (J_error "Этот ник занят или ошибка обновления"), [])
  | None =>
      (Store us (friends st) (msgs st),
       Response 200 (J_profile newUsername newAvatar),
       if bool_decide (newUsername ≠ currentUsername)
       then [UPDATE_messages_sender (to_sql newUsername) (to_sql currentUsername);
             UPDATE_messages_receiver (to_sql newUsername) (to_sql currentUsername);
             UPDATE_friends_user (to_sql newUsername) (to_sql currentUsername);
             UPDATE_friends_friend (to_sql newUsername) (to_sql currentUsername)]
       else [])
  end.

(** *** The HTTP server over time

    The store together with the statements that have been issued and not
    run yet. *)
Record http := Http {
  http_store : store;
  http_pending : list statement
}.

Inductive request :=
  | POST_register (username password : jsval) (hashedPassword : string)
      (fault : option error)
  | POST_friends (user friend : jsval) (fault : option error)
  | PUT_friends_respond (user friend action : jsval) (fault : option error)
  | PUT_user_profile (currentUsername newUsername newAvatar : jsval)
      (fault : option error)
  | Run_pending (k : nat) (fault : option error).   (* the database runs the
                                                       k-th pending statement *)

(** One request, or one pending statement; the reading routes ([login],
    [get_user], [get_friends], [get_friends_requests]) change nothing and
    are functions of the store. *)
Definition http_step (h : http) (r : request) : http * option response :=
  match r with
  | POST_register username password hashedPassword fault =>
      let '(st, resp) :=
        register username password hashedPassword fault (http_store h) in
      (Http st (http_pending h), Some resp)
  | POST_friends user friend fault =>
      let '(st, resp) := post_friends user friend fault (http_store h) in
      (Http st (http_pending h), Some resp)
  | PUT_friends_respond user friend action fault =>
      let '(st, resp, issued) :=
        put_friends_respond user friend action fault (http_store h) in
      (Http st (http_pending h ++ issued)%list, Some resp)
  | PUT_user_profile currentUsername newUsername newAvatar fault =>
      let '(st, resp, issued) :=
        put_user_profile currentUsername newUsername newAvatar fault
          (http_store h) in
      (Http st (http_pending h ++ issued)%list, Some resp)
  | Run_pending k fault =>
      match http_pending h !! k with
      | Some s =>
          (Http (run_statement s fault (http_store h)) (delete k (http_pending h)),
           None)
      | None => (h, None)
      end
  end.

Fixpoint http_run (h : http) (rs : list request) : http :=
  match rs with
  | [] => h
  | r :: rs' => http_run (http_step h r).1 rs'
  end.

Definition http_init : http := Http (Store [] [] (Database [] 1)) [].

(** ** Sample data *)

Definition alice : jsval := JStr "alice".
Definition bob : jsval := JStr "bob".
Definition carol : jsval := JStr "carol".

Definition morning : Date := {| getHours := 9; getMinutes := 5; getSeconds := 42 |}.

Definition hi_to (receiver : jsval) : send_data :=
  {| data_text := JStr "hi"; data_sender_username := alice;
     data_receiver_username := receiver; data_type := JUndefined;
     data_file_url := JUndefined; data_timestamp := JUndefined |}.

(** Three connections; 1 joins as alice, 2 as bob, 3 as carol. *)
Definition three_users : world :=
  (run init [Connection 1; Connection 2; Connection 3;
             Join 1 alice; Join 2 bob; Join 3 carol]).1.

(** The world in which alice's message to [receiver] has been inserted
    and its reply is due. *)
Definition reply_due (receiver : jsval) : world :=
  (run three_users [SendMessage 1 (hi_to receiver) morning; PgExec 0 None]).1.

(** Connection 1 is connected and never joins; connection 2 joins as
    alice and sends a message without receiver, whose insert has
    succeeded. *)
Definition silent_guest : world :=
  (run init [Connection 1; Connection 2; Join 2 alice;
             SendMessage 2 (hi_to JUndefined) morning; PgExec 0 None]).1.

(** A world with alice's message to bob submitted and not yet run. *)
Definition submitted : world :=
  (run three_users [SendMessage 1 (hi_to bob) morning]).1.

(** Carol has asked for her history with alice; the query is in flight. *)
Definition history_asked : world :=
  (run three_users [GetMessages 3 (JStr "private") alice carol]).1.

(** Connections 1 and 2, neither joined yet. *)
Definition two_sockets : world := (run init [Connection 1; Connection 2]).1.

Definition carol_to_alice : send_data :=
  {| data_text := JStr "hello"; data_sender_username := carol;
     data_receiver_username := alice; data_type := JUndefined;
     data_file_url := JUndefined; data_timestamp := JUndefined |}.

(** * Properties *)

(** Closed facts about the sample worlds are settled by evaluation. *)
Ltac by_evaluation := apply (bool_decide_unpack _); vm_compute; exact I.

(** ** Scenarios *)

(** Alice (connection 1) writes to bob (2); carol (3) gets nothing. *)
Example scenario_direct :
  (run three_users
     [SendMessage 1 (hi_to bob) morning; PgExec 0 None; PgReply 0]).2 =
  let m := Message (Some 1) (JStr "hi") alice bob "09:05" (JStr "text") JNull in
  [Packet 2 "receiveMessage" (NewMessage m);
   Packet 1 "receiveMessage" (NewMessage m)].
Proof. vm_compute. reflexivity. Qed.

(** Nobody is connected when a global message is stored; a socket that
    connects later finds it in the global history. *)
Example scenario_global_history :
  (run init
     [Connection 1; SendMessage 1 (hi_to JUndefined) morning; Disconnect 1;
      PgExec 0 None; PgReply 0;
      Connection 2; Join 2 bob;
      GetMessages 2 (JStr "global") JUndefined JUndefined;
      PgExec 1 None; PgReply 1]).2 =
  [Packet 2 "history"
     (History [MessageRow (Row 1 (Some "hi") (Some "alice") None (Some "09:05")
                             (Some "text") None)])].
Proof. vm_compute. reflexivity. Qed.

(** The insert fails: one line on the log, and the history stays empty. *)
Example scenario_failed_insert :
  (run three_users
     [SendMessage 1 (hi_to bob) morning; PgExec 0 (Some "boom"); PgReply 0;
      GetMessages 2 (JStr "private") alice bob; PgExec 1 None; PgReply 1]).2 =
  [ConsoleError "boom"; Packet 2 "history" (History [])].
Proof. vm_compute. reflexivity. Qed.

(** ** Reading effects *)

Lemma recipients_fanout (event : string) (b : body) (X : gset sid) :
  recipients event ((λ c, Packet c event b) <$> elements X) = X.
Proof.
  apply set_eq. intros c. unfold recipients.
  rewrite elem_of_list_to_set, list_elem_of_omap. split.
  - intros (e & He & Hc). apply list_elem_of_fmap in He as (c' & -> & Hc').
    simpl in Hc. rewrite bool_decide_eq_true_2 in Hc by done.
    injection Hc as <-. by apply elem_of_elements.
  - intros Hc. exists (Packet c event b). split.
    + apply list_elem_of_fmap. exists c. by rewrite elem_of_elements.
    + simpl. by rewrite bool_decide_eq_true_2.
Qed.

(** ** One turn of the loop, case by case *)

Lemma step_PgReply (w : world) (k : nat) (q : query)
    (reply : option error * option result) :
  inflight w !! k = Some q →
  q_reply q = Some reply →
  step w (PgReply k) = (retire k w, invoke w (q_callback q) reply).
Proof. intros Hk Hr. simpl. by rewrite Hk, Hr. Qed.

Lemma step_PgExec (w : world) (k : nat) (q : query) (fault : option error) :
  inflight w !! k = Some q →
  q_reply q = None →
  step w (PgExec k fault) = (exec k q fault w, []).
Proof. intros Hk Hr. simpl. by rewrite Hk, Hr. Qed.

Lemma step_SendMessage (w : world) (c : sid) (data : send_data) (now : Date) :
  c ∈ sockets w →
  step w (SendMessage c data now) = (on_sendMessage data now w, []).
Proof. intros Hc. simpl. by rewrite bool_decide_eq_true_2. Qed.

Lemma step_GetMessages (w : world) (c : sid) (type mate me : jsval) :
  c ∈ sockets w →
  step w (GetMessages c type mate me) = (on_getMessages c type mate me w, []).
Proof. intros Hc. simpl. by rewrite bool_decide_eq_true_2. Qed.

Lemma step_Join (w : world) (c : sid) (u : jsval) :
  c ∈ sockets w → step w (Join c u) = (on_join c u w, []).
Proof. intros Hc. simpl. by rewrite bool_decide_eq_true_2. Qed.

(** ** Room membership over time *)

Lemma connectionsFor_on_join (w : world) (c : sid) (u room : jsval) :
  connectionsFor (on_join c u w) room =
  if decide (u = room) then {[c]} ∪ connectionsFor w room
  else connectionsFor w room.
Proof.
  unfold connectionsFor at 1. cbn. rewrite lookup_insert.
  by destruct (decide (u = room)) as [->|].
Qed.

Lemma connectionsFor_disconnect (w : world) (c : sid) (room : jsval) :
  connectionsFor (disconnect c w) room = connectionsFor w room ∖ {[c]}.
Proof.
  unfold connectionsFor. cbn. rewrite lookup_fmap.
  destruct (rooms w !! room); cbn; [done|]. set_solver.
Qed.

(** Only a join or a disconnect touches the rooms. *)
Lemma rooms_step (w : world) (e : event) :
  (∀ c u, e ≠ Join c u) → (∀ c, e ≠ Disconnect c) →
  rooms (step w e).1 = rooms w.
Proof.
  intros Hj Hd.
  destruct e as [c|c|c u|c type mate me|c data now|k fault|k|k e0]; cbn.
  - done.
  - by destruct (Hd c).
  - by destruct (Hj c u).
  - case_bool_decide; [|done]. unfold on_getMessages.
    by destruct (getMessages_query type mate me).
  - by case_bool_decide.
  - destruct (inflight w !! k) as [q|]; [|done].
    destruct (q_reply q); [done|]. unfold exec.
    by destruct (pool_query (q_sql q) (q_params q) fault (db w)).
  - destruct (inflight w !! k) as [q|]; [|done]. by destruct (q_reply q).
  - destruct (inflight w !! k) as [q|]; [|done]. by destruct (q_reply q).
Qed.

(** A member of a room stays one until it disconnects. *)
Lemma step_keeps_member (w : world) (e : event) (c : sid) (room : jsval) :
  e ≠ Disconnect c →
  c ∈ connectionsFor w room → c ∈ connectionsFor (step w e).1 room.
Proof.
  intros Hne Hc.
  destruct e as [c'|c'|c' u|c' type mate me|c' data now|k fault|k|k e0];
    try (unfold connectionsFor; rewrite rooms_step; [done | done | done]).
  - cbn [step fst]. rewrite connectionsFor_disconnect.
    assert (c ≠ c') by congruence. set_solver.
  - cbn. case_bool_decide; [|done]. cbn [fst].
    rewrite connectionsFor_on_join. case_decide; set_solver.
Qed.

Lemma run_keeps_member (evs : list event) (w : world) (c : sid) (room : jsval) :
  Disconnect c ∉ evs →
  c ∈ connectionsFor w room → c ∈ connectionsFor (run w evs).1 room.
Proof.
  revert w. induction evs as [|e evs IH]; intros w Hd Hc; [done|].
  apply not_elem_of_cons in Hd as [Hne Hd].
  cbn [run]. pose proof (step_keeps_member w e c room) as Hstep.
  destruct (step w e) as [w1 out1]. specialize (IH w1 Hd).
  destruct (run w1 evs) as [w2 out2]. cbn [fst] in *.
  apply IH, Hstep; [congruence | done].
Qed.

(** ** The rooms are the registry

    In every run, the sockets of the namespace are the connections that
    are open, and the members of the room of a username are the
    connections registered under it by a join. *)

Lemma run_snoc (w : world) (evs : list event) (e : event) :
  (run w (evs ++ [e])).1 = (step (run w evs).1 e).1.
Proof.
  revert w. induction evs as [|e' evs IH]; intros w; cbn [run app fst].
  - by destruct (step w e).
  - destruct (step w e') as [w1 out1]. specialize (IH w1).
    destruct (run w1 (evs ++ [e])), (run w1 evs). cbn [fst] in *. done.
Qed.

Lemma sockets_step (w : world) (e : event) :
  (∀ c, e ≠ Connection c) → (∀ c, e ≠ Disconnect c) →
  sockets (step w e).1 = sockets w.
Proof.
  intros Hc Hd.
  destruct e as [c|c|c u|c type mate me|c data now|k fault|k|k e0]; cbn.
  - by destruct (Hc c).
  - by destruct (Hd c).
  - by case_bool_decide.
  - case_bool_decide; [|done]. unfold on_getMessages.
    by destruct (getMessages_query type mate me).
  - by case_bool_decide.
  - destruct (inflight w !! k) as [q|]; [|done].
    destruct (q_reply q); [done|]. unfold exec.
    by destruct (pool_query (q_sql q) (q_params q) fault (db w)).
  - destruct (inflight w !! k) as [q|]; [|done]. by destruct (q_reply q).
  - destruct (inflight w !! k) as [q|]; [|done]. by destruct (q_reply q).
Qed.

Lemma sockets_run (evs : list event) (c : sid) :
  c ∈ sockets (run init evs).1 ↔ connected_after (rev evs) c = true.
Proof.
  induction evs as [|e evs IH] using rev_ind; [cbn; set_solver|].
  rewrite run_snoc, rev_unit.
  destruct e as [c'|c'|c' u|c' type mate me|c' data now|k fault|k|k e0];
    try (rewrite sockets_step by done; exact IH).
  - cbn. rewrite orb_true_iff, bool_decide_eq_true, <- IH. set_solver.
  - cbn. rewrite andb_true_iff, negb_true_iff, bool_decide_eq_false, <- IH.
    set_solver.
Qed.

Lemma connectionsFor_run (evs : list event) (c : sid) (u : jsval) :
  c ∈ connectionsFor (run init evs).1 u ↔ registered_after (rev evs) c u = true.
Proof.
  induction evs as [|e evs IH] using rev_ind; [cbn; set_solver|].
  rewrite run_snoc, rev_unit.
  destruct e as [c'|c'|c' u'|c' type mate me|c' data now|k fault|k|k e0];
    try (unfold connectionsFor at 1; rewrite rooms_step by done; exact IH).
  - cbn [step fst registered_after]. rewrite connectionsFor_disconnect.
    rewrite andb_true_iff, negb_true_iff, bool_decide_eq_false, <- IH.
    set_solver.
  - cbn [step registered_after].
    rewrite orb_true_iff, !andb_true_iff, !bool_decide_eq_true, <- IH,
      <- sockets_run.
    case_bool_decide as Hc'; cbn [fst].
    + rewrite connectionsFor_on_join. case_decide; set_solver.
    + set_solver.
Qed.

(** ** Routing of a persisted message *)

(** The successful branch of the callback: which packets leave. *)
Lemma sendMessage_callback_direct (w : world) text s r ts ty f lastID :
  truthy r = true →
  sendMessage_callback w text s r ts ty f None lastID =
  io_to_to_emit w r s "receiveMessage"
    (NewMessage (Message lastID text s r ts ty f)).
Proof. intros Hr. unfold sendMessage_callback. by rewrite Hr. Qed.

Lemma sendMessage_callback_global (w : world) text s r ts ty f lastID :
  truthy r = false →
  sendMessage_callback w text s r ts ty f None lastID =
  io_emit w "receiveMessage" (NewMessage (Message lastID text s r ts ty f)).
Proof. intros Hr. unfold sendMessage_callback. by rewrite Hr. Qed.

Lemma invoke_direct_recipients (w : world) text s r ts ty f
    (res : option result) :
  truthy r = true →
  recipients "receiveMessage"
    (invoke w (sendMessage_cb text s r ts ty f) (None, res)) =
  connectionsFor w s ∪ connectionsFor w r.
Proof.
  intros Hr. unfold invoke.
  rewrite sendMessage_callback_direct by done.
  unfold io_to_to_emit. rewrite recipients_fanout. apply (comm_L (∪)).
Qed.

(** C1, as amended: when the insert of a sendMessage has succeeded and the
    payload's receiver is a non-empty string (a truthy value), the reply
    turn delivers [receiveMessage] to exactly the members of the sender's
    room together with the members of the receiver's room, whatever other
    sockets are connected. *)
Theorem direct_message_recipients (w : world) (k : nat) (q : query)
    text s r ts ty f (res : option result) :
  inflight w !! k = Some q →
  q_callback q = sendMessage_cb text s r ts ty f →
  q_reply q = Some (None, res) →
  truthy r = true →
  recipients "receiveMessage" (step w (PgReply k)).2 =
  connectionsFor w s ∪ connectionsFor w r.
Proof.
  intros Hk Hcb Hreply Hr.
  rewrite (step_PgReply w k q _ Hk Hreply). cbn [snd]. rewrite Hcb.
  by apply invoke_direct_recipients.
Qed.

Lemma direct_message_recipients_witness :
  recipients "receiveMessage" (step (reply_due bob) (PgReply 0)).2 =
  connectionsFor (reply_due bob) alice ∪ connectionsFor (reply_due bob) bob.
Proof.
  apply (direct_message_recipients (reply_due bob) 0
    (Query INSERT_message
       [JStr "hi"; alice; bob; JStr "09:05"; JStr "text"; JNull]
       (sendMessage_cb (JStr "hi") alice bob "09:05" (JStr "text") JNull)
       (Some (None, Some (Result [IdRow 1]))))
    (JStr "hi") alice bob "09:05" (JStr "text") JNull (Some (Result [IdRow 1])));
    vm_compute; reflexivity.
Defined.

(** C1 as stated fails: a payload whose receiver is the empty string has a
    non-null receiver, its insert succeeds, and the message goes to every
    connected socket; carol's connection 3 gets it although it is in neither
    room. *)
Lemma empty_receiver_reaches_third_party :
  let w := reply_due (JStr "") in
  inflight w !! 0%nat =
    Some (Query INSERT_message
            [JStr "hi"; alice; JNull; JStr "09:05"; JStr "text"; JNull]
            (sendMessage_cb (JStr "hi") alice (JStr "") "09:05" (JStr "text") JNull)
            (Some (None, Some (Result [IdRow 1])))) ∧
  JStr "" ≠ JNull ∧
  JStr "" ≠ JUndefined ∧
  (3%nat ∈ recipients "receiveMessage" (step w (PgReply 0)).2) ∧
  (3%nat ∉ connectionsFor w alice ∪ connectionsFor w (JStr "")) ∧
  recipients "receiveMessage" (step w (PgReply 0)).2 ≠
  connectionsFor w alice ∪ connectionsFor w (JStr "").
Proof.
  assert (Hin : 3%nat ∈ recipients "receiveMessage"
                  (step (reply_due (JStr "")) (PgReply 0)).2).
  { by_evaluation. }
  assert (Hout : 3%nat ∉ connectionsFor (reply_due (JStr "")) alice ∪
                         connectionsFor (reply_due (JStr "")) (JStr "")).
  { by_evaluation. }
  cbv zeta. split_and!;
    first [ exact Hin | exact Hout | discriminate | by vm_compute
          | intros Heq; apply Hout; rewrite <- Heq; exact Hin ].
Qed.

(** C2, as amended: when the insert of a sendMessage has succeeded and the
    payload has no receiver (absent, null or empty), the reply turn
    delivers [receiveMessage] to exactly the sockets connected at that
    moment, whether or not they ever joined. *)
Theorem global_message_recipients (w : world) (k : nat) (q : query)
    text s r ts ty f (res : option result) :
  inflight w !! k = Some q →
  q_callback q = sendMessage_cb text s r ts ty f →
  q_reply q = Some (None, res) →
  truthy r = false →
  recipients "receiveMessage" (step w (PgReply k)).2 = sockets w.
Proof.
  intros Hk Hcb Hreply Hr.
  rewrite (step_PgReply w k q _ Hk Hreply). cbn [snd]. unfold invoke. rewrite Hcb.
  rewrite sendMessage_callback_global by done.
  unfold io_emit. apply recipients_fanout.
Qed.

Lemma global_message_recipients_witness :
  recipients "receiveMessage" (step (reply_due JUndefined) (PgReply 0)).2 =
  sockets (reply_due JUndefined).
Proof.
  apply (global_message_recipients (reply_due JUndefined) 0
    (Query INSERT_message
       [JStr "hi"; alice; JNull; JStr "09:05"; JStr "text"; JNull]
       (sendMessage_cb (JStr "hi") alice JUndefined "09:05" (JStr "text") JNull)
       (Some (None, Some (Result [IdRow 1]))))
    (JStr "hi") alice JUndefined "09:05" (JStr "text") JNull
    (Some (Result [IdRow 1])));
    vm_compute; reflexivity.
Defined.

(** C2 as stated fails: the broadcast reaches connection 1, which no join
    has associated with a username (it has no [socket.username] and is in
    no room), so the set of recipients is not the set of live
    connections. *)
Lemma broadcast_reaches_unjoined_socket :
  inflight silent_guest !! 0%nat =
    Some (Query INSERT_message
            [JStr "hi"; alice; JNull; JStr "09:05"; JStr "text"; JNull]
            (sendMessage_cb (JStr "hi") alice JUndefined "09:05" (JStr "text") JNull)
            (Some (None, Some (Result [IdRow 1])))) ∧
  username silent_guest !! 1%nat = None ∧
  (∀ room, 1%nat ∉ connectionsFor silent_guest room) ∧
  (1%nat ∈ recipients "receiveMessage" (step silent_guest (PgReply 0)).2) ∧
  (1%nat ∉ live_connections silent_guest) ∧
  recipients "receiveMessage" (step silent_guest (PgReply 0)).2 ≠
  live_connections silent_guest.
Proof.
  assert (Hin : 1%nat ∈ recipients "receiveMessage"
                  (step silent_guest (PgReply 0)).2).
  { by_evaluation. }
  assert (Hout : 1%nat ∉ live_connections silent_guest).
  { by_evaluation. }
  split_and!;
    first [ exact Hin | exact Hout | by vm_compute
          | intros Heq; apply Hout; rewrite <- Heq; exact Hin | idtac ].
  intros room. unfold silent_guest. rewrite connectionsFor_run.
  by vm_compute.
Qed.

(** ** The life of a query: submitted, run, replied *)

Lemma on_sendMessage_inflight (w : world) (data : send_data) (now : Date) :
  inflight (on_sendMessage data now w) !! next_query w =
  Some (Query INSERT_message
          [prepareValue (js_or_any (data_text data) (JStr ""));
           data_sender_username data;
           js_or (data_receiver_username data) JNull;
           JStr (two_digit (getHours now) +:+ ":" +:+ two_digit (getMinutes now));
           js_default (data_type data) (JStr "text");
           js_default (data_file_url data) JNull]
          (sendMessage_cb (data_text data) (data_sender_username data)
             (data_receiver_username data)
             (two_digit (getHours now) +:+ ":" +:+ two_digit (getMinutes now))
             (js_default (data_type data) (JStr "text"))
             (js_default (data_file_url data) JNull))
          None).
Proof. unfold on_sendMessage, submit. cbn. apply lookup_insert_eq. Qed.

Lemma exec_fault (w : world) (k : nat) (q : query) (e : error) :
  messages (db (exec k q (Some e) w)) = messages (db w) ∧
  inflight (exec k q (Some e) w) !! k =
    Some (Query (q_sql q) (q_params q) (q_callback q) (Some (Some e, None))).
Proof.
  unfold exec, pool_query.
  destruct (q_sql q); cbn; (split; [done | apply lookup_insert_eq]).
Qed.

(** A failed insert stores nothing but uses up an id: the next message
    stored gets the id after the lost one. *)
Lemma failed_insert_skips_an_id :
  messages (db (run three_users
    [SendMessage 1 (hi_to bob) morning; PgExec 0 (Some "boom"); PgReply 0;
     SendMessage 1 (hi_to bob) morning; PgExec 1 None]).1) =
  [Row 2 (Some "hi") (Some "alice") (Some "bob") (Some "09:05") (Some "text")
     None].
Proof. by vm_compute. Qed.

Lemma exec_insert (w : world) (k : nat) (q : query) :
  q_sql q = INSERT_message →
  messages (db (exec k q None w)) =
    (messages (db w) ++ [inserted_row (messages_id_seq (db w)) (q_params q)])%list ∧
  inflight (exec k q None w) !! k =
    Some (Query (q_sql q) (q_params q) (q_callback q)
            (Some (None, Some (Result [IdRow (messages_id_seq (db w))])))).
Proof.
  intros Hq. unfold exec. cbn. rewrite Hq. cbn.
  split; [done | apply lookup_insert_eq].
Qed.

Lemma sendMessage_callback_packets (w : world) text s r ts ty f lastID :
  Forall (λ e, ∃ c, e = Packet c "receiveMessage"
                        (NewMessage (Message lastID text s r ts ty f)))
    (sendMessage_callback w text s r ts ty f None lastID).
Proof.
  unfold sendMessage_callback, io_emit, io_to_to_emit.
  destruct (truthy r); cbn; apply Forall_fmap, Forall_forall; intros c _;
    by exists c.
Qed.

(** ** Failures of the database *)

Lemma invoke_retire (k : nat) (w : world) (cb : callback)
    (reply : option error * option result) :
  invoke (retire k w) cb reply = invoke w cb reply.
Proof. by destruct reply as [err res], cb. Qed.

Lemma step_PgLost (w : world) (k : nat) (q : query) (e : error) :
  inflight w !! k = Some q →
  q_reply q = None →
  step w (PgLost k e) = (lose k q e w, []).
Proof. intros Hk Hr. simpl. by rewrite Hk, Hr. Qed.

Lemma world_eq (a b : world) :
  sockets a = sockets b → rooms a = rooms b → username a = username b →
  db a = db b → inflight a = inflight b → next_query a = next_query b →
  a = b.
Proof. destruct a, b. cbn. by intros -> -> -> -> -> ->. Qed.

Lemma failed_insert_other (a : world) (k k' : nat) (e : error) (q' : query)
    (m : gmap nat query) :
  k' ≠ k → failed_insert a k e → m = <[k' := q']> (inflight a) →
  ∀ a', inflight a' = m → failed_insert a' k e.
Proof.
  intros Hne (q & text & s & r & ts & ty & f & Hk & Hcb & Hreply) -> a' Ha'.
  exists q, text, s, r, ts, ty, f. split; [|done].
  by rewrite Ha', lookup_insert_ne.
Qed.

(** One turn keeps the two worlds in step and emits the same packets in
    both. *)
Lemma step_without_failed (k : nat) (e : error) (a b : world) (ev : event) :
  without_failed k e a b →
  without_failed k e (step a ev).1 (step b ev).1 ∧
  packets_of (step a ev).2 = packets_of (step b ev).2.
Proof.
  intros [-> | [Hdead ->]]; [split; [by left | done]|].
  pose proof Hdead as (q & text & s & r & ts & ty & f & Hk & Hcb & Hreply).
  destruct ev as [c|c|c u|c type mate me|c data now|k' fault|k'|k' e'].
  - split; [|done]. right. split; [|done].
    exists q, text, s, r, ts, ty, f. by split.
  - split; [|done]. right. split; [|done].
    exists q, text, s, r, ts, ty, f. by split.
  - cbn. case_bool_decide; cbn; (split; [|done]); right; (split; [|done]);
      exists q, text, s, r, ts, ty, f; by split.
  - cbn. case_bool_decide; cbn [fst snd];
      [|split; [by right | done]].
    unfold on_getMessages. destruct (getMessages_query type mate me) as [sq ps].
    split; [|done].
    destruct (decide (next_query a = k)) as [Hn | Hn].
    + left. apply world_eq; try done. cbn. by rewrite Hn, insert_delete_eq.
    + right. split.
      * eapply (failed_insert_other a k (next_query a)); [done | done | done | done].
      * apply world_eq; try done. cbn. by rewrite delete_insert_ne.
  - cbn. case_bool_decide; cbn [fst snd];
      [|split; [by right | done]].
    split; [|done]. unfold on_sendMessage.
    destruct (decide (next_query a = k)) as [Hn | Hn].
    + left. apply world_eq; try done. cbn. by rewrite Hn, insert_delete_eq.
    + right. split.
      * eapply (failed_insert_other a k (next_query a)); [done | done | done | done].
      * apply world_eq; try done. cbn. by rewrite delete_insert_ne.
  - destruct (decide (k' = k)) as [-> | Hne].
    + cbn. rewrite Hk, Hreply, lookup_delete_eq. cbn. split; [by right | done].
    + cbn. rewrite lookup_delete_ne by done.
      destruct (inflight a !! k') as [q'|] eqn:Hk'; [|split; [by right | done]].
      destruct (q_reply q'); [split; [by right | done]|].
      cbn [fst snd]. split; [|done]. right. unfold exec. cbn [db retire].
      destruct (pool_query (q_sql q') (q_params q') fault (db a)) as [d reply].
      split.
      * eapply (failed_insert_other a k k'); [done | done | done | done].
      * apply world_eq; try done. cbn. by rewrite delete_insert_ne.
  - destruct (decide (k' = k)) as [-> | Hne].
    + cbn. rewrite Hk, Hreply, lookup_delete_eq. cbn [fst snd].
      split; [by left|]. by rewrite Hcb.
    + cbn. rewrite lookup_delete_ne by done.
      destruct (inflight a !! k') as [q'|] eqn:Hk'; [|split; [by right | done]].
      destruct (q_reply q') as [reply|]; [|split; [by right | done]].
      cbn [fst snd]. rewrite invoke_retire. split; [|done]. right. split.
      * exists q, text, s, r, ts, ty, f. split; [|done]. cbn.
        by rewrite lookup_delete_ne.
      * apply world_eq; try done. cbn. apply delete_delete.
  - destruct (decide (k' = k)) as [-> | Hne].
    + cbn. rewrite Hk, Hreply, lookup_delete_eq. cbn. split; [by right | done].
    + cbn. rewrite lookup_delete_ne by done.
      destruct (inflight a !! k') as [q'|] eqn:Hk'; [|split; [by right | done]].
      destruct (q_reply q'); [split; [by right | done]|].
      cbn [fst snd]. split; [|done]. right. split.
      * eapply (failed_insert_other a k k'); [done | done | done | done].
      * apply world_eq; try done. cbn. by rewrite delete_insert_ne.
Qed.

Lemma run_without_failed (k : nat) (e : error) (evs : list event) (a b : world) :
  without_failed k e a b →
  without_failed k e (run a evs).1 (run b evs).1 ∧
  packets_of (run a evs).2 = packets_of (run b evs).2.
Proof.
  revert a b. induction evs as [|ev evs IH]; intros a b Hab; [done|].
  cbn [run]. destruct (step_without_failed k e a b ev Hab) as [Hstep Hout].
  destruct (step a ev) as [a1 outa], (step b ev) as [b1 outb].
  destruct (IH a1 b1 Hstep) as [Hrun Hout'].
  destruct (run a1 evs) as [a2 outa'], (run b1 evs) as [b2 outb'].
  cbn [fst snd] in *. split; [done|].
  unfold packets_of in *. by rewrite !omap_app, Hout, Hout'.
Qed.

Lemma without_failed_db (k : nat) (e : error) (a b : world) :
  without_failed k e a b → db a = db b.
Proof. by intros [-> | [_ ->]]. Qed.

(** C3: if the insert of a sendMessage fails, whether while the database
    runs it or before, the failing turn emits nothing and leaves the table
    as it was; the reply turn, whenever it comes, writes the error to the
    server's log and nothing else (no packet to any connection, the sender
    included) and takes the query out of flight.  From the failure on the
    query is of no effect: whatever events follow, the database, every
    history and every packet sent are the same as in the world in which
    that query is not in flight at all, so the message is never delivered
    and is in no later history. *)
Theorem failed_insert_is_dropped (w : world) (k : nat) (q : query) (e : error)
    text s r ts ty f (failure : event) (evs : list event) :
  inflight w !! k = Some q →
  q_callback q = sendMessage_cb text s r ts ty f →
  q_reply q = None →
  failure = PgExec k (Some e) ∨ failure = PgLost k e →
  (step w failure).2 = [] ∧
  messages (db (step w failure).1) = messages (db w) ∧
  (∀ w', inflight w' !! k = inflight (step w failure).1 !! k →
     (step w' (PgReply k)).2 = [ConsoleError e] ∧
     messages (db (step w' (PgReply k)).1) = messages (db w') ∧
     inflight (step w' (PgReply k)).1 !! k = None) ∧
  db (run (step w failure).1 evs).1 =
    db (run (retire k (step w failure).1) evs).1 ∧
  packets_of (run (step w failure).1 evs).2 =
    packets_of (run (retire k (step w failure).1) evs).2 ∧
  (∀ type mate me,
     history_rows type mate me (db (run (step w failure).1 evs).1) =
     history_rows type mate me (db (run (retire k (step w failure).1) evs).1)).
Proof.
  intros Hk Hcb Hreply Hfail.
  assert (Hstep : (step w failure).2 = [] ∧
            messages (db (step w failure).1) = messages (db w) ∧
            inflight (step w failure).1 !! k =
              Some (Query (q_sql q) (q_params q) (q_callback q)
                      (Some (Some e, None)))).
  { destruct Hfail as [-> | ->].
    - rewrite (step_PgExec w k q _ Hk Hreply). cbn [fst snd].
      split; [done|]. apply exec_fault.
    - rewrite (step_PgLost w k q _ Hk Hreply). cbn [fst snd lose db inflight].
      split; [done|]. split; [done|]. apply lookup_insert_eq. }
  destruct Hstep as (Hout & Hmsgs & Hk1).
  split; [done|]. split; [done|]. split.
  { intros w' Hk'. rewrite Hk1 in Hk'.
    rewrite (step_PgReply w' k _ (Some e, None) Hk' eq_refl). cbn [fst snd].
    unfold invoke. cbn [q_callback]. rewrite Hcb.
    split_and!; try done. cbn. apply lookup_delete_eq. }
  assert (Hrel : without_failed k e (step w failure).1
                   (retire k (step w failure).1)).
  { right. split; [|done].
    eexists _, text, s, r, ts, ty, f. split; [exact Hk1|]. by split. }
  destruct (run_without_failed k e evs _ _ Hrel) as [Hrun Hpackets].
  apply without_failed_db in Hrun.
  split; [done|]. split; [done|]. intros type mate me. by rewrite Hrun.
Qed.

Lemma failed_insert_is_dropped_witness :
  packets_of
    (run (step submitted (PgExec 0 (Some "connection lost"))).1
       [PgReply 0; SendMessage 2 (hi_to alice) morning; PgExec 0 None;
        PgExec 1 None; PgReply 1]).2 =
  packets_of
    (run (retire 0 (step submitted (PgExec 0 (Some "connection lost"))).1)
       [PgReply 0; SendMessage 2 (hi_to alice) morning; PgExec 0 None;
        PgExec 1 None; PgReply 1]).2.
Proof.
  refine (proj1 (proj2 (proj2 (proj2 (proj2 (failed_insert_is_dropped submitted 0
    (Query INSERT_message
       [JStr "hi"; alice; bob; JStr "09:05"; JStr "text"; JNull]
       (sendMessage_cb (JStr "hi") alice bob "09:05" (JStr "text") JNull)
       None)
    "connection lost" (JStr "hi") alice bob "09:05" (JStr "text") JNull
    (PgExec 0 (Some "connection lost"))
    [PgReply 0; SendMessage 2 (hi_to alice) morning; PgExec 0 None;
     PgExec 1 None; PgReply 1] _ _ _ _)))))).
  - vm_compute. reflexivity.
  - reflexivity.
  - reflexivity.
  - left. reflexivity.
Defined.

(** C8: if the query of a history request fails, the reply turn emits
    nothing at all: no [history] packet to the requesting connection, no
    error event, and (unlike a failed insert) no line on the log.  The
    same holds when the query fails before the database has run it. *)
Theorem failed_history_is_silent (w : world) (k : nat) (q : query) (e : error)
    (socket : sid) :
  inflight w !! k = Some q →
  q_callback q = getMessages_cb socket →
  q_reply q = None →
  ((step w (PgExec k (Some e))).2 = [] ∧
   ∃ q', inflight (step w (PgExec k (Some e))).1 !! k = Some q' ∧
     ∀ w', inflight w' !! k = Some q' → (step w' (PgReply k)).2 = []) ∧
  ((step w (PgLost k e)).2 = [] ∧
   ∃ q', inflight (step w (PgLost k e)).1 !! k = Some q' ∧
     ∀ w', inflight w' !! k = Some q' → (step w' (PgReply k)).2 = []).
Proof.
  intros Hk Hcb Hreply.
  assert (Hsilent : ∀ w', inflight w' !! k =
              Some (Query (q_sql q) (q_params q) (q_callback q)
                      (Some (Some e, None))) →
            (step w' (PgReply k)).2 = []).
  { intros w' Hk'.
    rewrite (step_PgReply w' k _ (Some e, None) Hk' eq_refl). cbn [snd].
    unfold invoke. cbn [q_callback]. by rewrite Hcb. }
  split.
  - rewrite (step_PgExec w k q _ Hk Hreply). cbn [fst snd].
    destruct (exec_fault w k q e) as [_ Hq'].
    split; [done|]. eexists. split; [exact Hq' | exact Hsilent].
  - rewrite (step_PgLost w k q _ Hk Hreply). cbn [fst snd].
    split; [done|]. eexists. split; [apply lookup_insert_eq | exact Hsilent].
Qed.

Lemma failed_history_is_silent_witness :
  (step history_asked (PgExec 0 (Some "timeout"))).2 = [] ∧
  ∃ q', inflight (step history_asked (PgExec 0 (Some "timeout"))).1 !! 0%nat
        = Some q' ∧
    ∀ w', inflight w' !! 0%nat = Some q' → (step w' (PgReply 0)).2 = [].
Proof.
  apply (failed_history_is_silent history_asked 0
    (Query SELECT_direct [carol; alice; alice; carol] (getMessages_cb 3) None)
    "timeout" 3);
    vm_compute; reflexivity.
Defined.

(** ** What is stored and what is dispatched *)








(** ** History loading *)

Lemma select_where_sorted (cond : row → tri) (tbl : list row) :
  Sorted id_le (select_where cond tbl).
Proof. unfold select_where, order_by_id. apply (Sorted_merge_sort id_le). Qed.

Lemma select_where_perm (cond : row → tri) (tbl : list row) :
  select_where cond tbl ≡ₚ filter (λ r, is_true (cond r) = true) tbl.
Proof. unfold select_where, order_by_id. apply merge_sort_Permutation. Qed.

Lemma elem_of_select_where (cond : row → tri) (tbl : list row) (r : row) :
  r ∈ select_where cond tbl ↔ is_true (cond r) = true ∧ r ∈ tbl.
Proof. by rewrite select_where_perm, list_elem_of_filter. Qed.

(** The WHERE clause of the direct query, with [me = a] and [mate = b],
    is TRUE on exactly the rows between [a] and [b]. *)
Lemma where_direct_between (a b : string) (r : row) :
  is_true (where_direct [JStr a; JStr b; JStr b; JStr a] r) = true ↔
  between a b r.
Proof.
  unfold where_direct, between, param. cbn.
  destruct (sender_username r) as [s|], (receiver_username r) as [t|]; cbn;
    repeat case_bool_decide; cbn; naive_solver.
Qed.

(** A NULL receiver makes the direct WHERE clause never TRUE, whatever
    the two parameters are. *)
Lemma where_direct_null_receiver (params : list jsval) (r : row) :
  receiver_username r = None → is_true (where_direct params r) = false.
Proof.
  intros Hr. unfold where_direct. rewrite Hr.
  destruct (sql_eq (sender_username r) (param params 1)) as [[]|],
           (sql_eq (sender_username r) (param params 3)) as [[]|]; reflexivity.
Qed.

Lemma on_getMessages_inflight (w : world) (c : sid) (type mate me : jsval) :
  inflight (on_getMessages c type mate me w) !! next_query w =
  Some (Query (getMessages_query type mate me).1
          (getMessages_query type mate me).2 (getMessages_cb c) None).
Proof.
  unfold on_getMessages. destruct (getMessages_query type mate me) as [q ps].
  cbn. apply lookup_insert_eq.
Qed.

(** C5: a history request of a connected socket [c] whose type is not
    ['global'], for [me = a] and [mate = b], leaves one query in flight;
    when the database runs it, the rows it yields are the rows of the
    table between [a] and [b] (each once), in ascending order of id; and
    the reply turn emits one [history] packet with these rows, to [c] and
    to no other connection (nothing at all if [c] has gone meanwhile). *)
Theorem direct_history (w : world) (c : sid) (type : jsval) (a b : string) :
  c ∈ sockets w →
  type ≠ JStr "global" →
  let k := next_query w in
  (step w (GetMessages c type (JStr b) (JStr a))).2 = [] ∧
  ∃ q, inflight (step w (GetMessages c type (JStr b) (JStr a))).1 !! k = Some q ∧
       q_reply q = None ∧
    ∀ w1, inflight w1 !! k = Some q →
      ∃ l q1,
        Sorted id_le l ∧
        l ≡ₚ filter (between a b) (messages (db w1)) ∧
        (step w1 (PgExec k None)).2 = [] ∧
        inflight (step w1 (PgExec k None)).1 !! k = Some q1 ∧
        ∀ w2, inflight w2 !! k = Some q1 →
          (step w2 (PgReply k)).2 =
          if bool_decide (c ∈ sockets w2)
          then [Packet c "history" (History (MessageRow <$> l))]
          else [].
Proof.
  intros Hc Htype k.
  rewrite step_GetMessages by done. cbn [fst snd]. split; [done|].
  eexists. split; [apply on_getMessages_inflight|]. split; [done|].
  unfold getMessages_query. rewrite bool_decide_eq_false_2 by done. cbn [fst snd].
  intros w1 Hk1.
  rewrite (step_PgExec w1 k _ None Hk1 eq_refl). cbn [fst snd].
  exists (select_where (where_direct [JStr a; JStr b; JStr b; JStr a])
            (messages (db w1))).
  eexists. split_and!.
  - apply select_where_sorted.
  - rewrite select_where_perm.
    by rewrite (list_filter_iff _ (between a b)) by apply where_direct_between.
  - done.
  - unfold exec. cbn. apply lookup_insert_eq.
  - intros w2 Hk2.
    by rewrite (step_PgReply w2 k _ _ Hk2 eq_refl).
Qed.

Lemma direct_history_witness :
  ∃ q, inflight (step three_users (GetMessages 3 (JStr "private") alice carol)).1
         !! 0%nat = Some q ∧ q_reply q = None.
Proof.
  destruct (direct_history three_users 3 (JStr "private") "carol" "alice")
    as (_ & q & Hq & Hr & _).
  - by_evaluation.
  - discriminate.
  - exists q. split; [exact Hq | exact Hr].
Defined.

(** C6: a stored row with a receiver is in no global-scope history, and a
    stored row without receiver is in no direct-scope history, whatever
    the two usernames of the request are. *)
Theorem history_partition (d : database) (r : row) :
  r ∈ messages d →
  (receiver_username r ≠ None →
   ∀ mate me, MessageRow r ∉ history_rows (JStr "global") mate me d) ∧
  (receiver_username r = None →
   ∀ type mate me, type ≠ JStr "global" →
     MessageRow r ∉ history_rows type mate me d).
Proof.
  intros _. split.
  - intros Hr mate me. unfold history_rows. cbn.
    intros Hin. apply list_elem_of_fmap in Hin as (r' & [= <-] & Hin).
    apply elem_of_select_where in Hin as [Hcond _].
    unfold where_global, sql_is_null in Hcond. cbn in Hcond.
    by case_bool_decide.
  - intros Hr type mate me Htype. unfold history_rows, getMessages_query.
    rewrite bool_decide_eq_false_2 by done. cbn.
    intros Hin. apply list_elem_of_fmap in Hin as (r' & [= <-] & Hin).
    apply elem_of_select_where in Hin as [Hcond _].
    by rewrite where_direct_null_receiver in Hcond.
Qed.

Lemma history_partition_witness :
  MessageRow (Row 1 (Some "hi") (Some "alice") (Some "bob") (Some "09:05")
                (Some "text") None)
    ∉ history_rows (JStr "global") JUndefined JUndefined
        (db (step (reply_due bob) (PgReply 0)).1).
Proof.
  refine (proj1 (history_partition (db (step (reply_due bob) (PgReply 0)).1)
            (Row 1 (Some "hi") (Some "alice") (Some "bob") (Some "09:05")
               (Some "text") None) _) _ JUndefined JUndefined).
  - by_evaluation.
  - discriminate.
Defined.

(** ** A second join *)

(** C9: a connected socket that joins as [u] and then as [v] is in both
    rooms, and stays in both through any later events short of its own
    disconnect; so a direct message (non-empty receiver) whose insert has
    succeeded and whose sender or receiver is [u], or is [v], is delivered
    to it. *)
Theorem second_join_keeps_first_room (w : world) (c : sid) (u v : jsval)
    (evs : list event) (k : nat) (q : query) text s r ts ty f
    (res : option result) :
  c ∈ sockets w →
  Disconnect c ∉ evs →
  inflight (run w (Join c u :: Join c v :: evs)).1 !! k = Some q →
  q_callback q = sendMessage_cb text s r ts ty f →
  q_reply q = Some (None, res) →
  truthy r = true →
  s = u ∨ r = u ∨ s = v ∨ r = v →
  c ∈ connectionsFor (run w (Join c u :: Join c v :: evs)).1 u ∧
  c ∈ connectionsFor (run w (Join c u :: Join c v :: evs)).1 v ∧
  c ∈ recipients "receiveMessage"
        (step (run w (Join c u :: Join c v :: evs)).1 (PgReply k)).2.
Proof.
  intros Hc Hd Hk Hcb Hreply Hr Hsr.
  assert (Hrun : (run w (Join c u :: Join c v :: evs)).1 =
                 (run (on_join c v (on_join c u w)) evs).1).
  { cbn [run]. rewrite (step_Join w c u Hc).
    rewrite (step_Join (on_join c u w) c v) by done.
    by destruct (run (on_join c v (on_join c u w)) evs). }
  rewrite Hrun in *.
  assert (Hu : c ∈ connectionsFor (run (on_join c v (on_join c u w)) evs).1 u).
  { apply run_keeps_member; [done|]. rewrite !connectionsFor_on_join.
    repeat case_decide; try done; set_solver. }
  assert (Hv : c ∈ connectionsFor (run (on_join c v (on_join c u w)) evs).1 v).
  { apply run_keeps_member; [done|]. rewrite connectionsFor_on_join.
    rewrite decide_True by done. set_solver. }
  split; [done|]. split; [done|].
  rewrite (step_PgReply _ k q _ Hk Hreply). cbn [snd]. rewrite Hcb.
  rewrite invoke_direct_recipients by done.
  destruct Hsr as [-> | [-> | [-> | ->]]]; set_solver.
Qed.

Lemma second_join_keeps_first_room_witness :
  1%nat ∈ recipients "receiveMessage"
    (step (run two_sockets
             [Join 1 alice; Join 1 bob;
              SendMessage 2 carol_to_alice morning; PgExec 0 None]).1
          (PgReply 0)).2.
Proof.
  refine (proj2 (proj2 (second_join_keeps_first_room two_sockets 1 alice bob
    [SendMessage 2 carol_to_alice morning; PgExec 0 None] 0
    (Query INSERT_message
       [JStr "hello"; carol; alice; JStr "09:05"; JStr "text"; JNull]
       (sendMessage_cb (JStr "hello") carol alice "09:05" (JStr "text") JNull)
       (Some (None, Some (Result [IdRow 1]))))
    (JStr "hello") carol alice "09:05" (JStr "text") JNull
    (Some (Result [IdRow 1])) _ _ _ _ _ _ _))).
  - by_evaluation.
  - rewrite !not_elem_of_cons. split_and!; [discriminate.. | apply not_elem_of_nil].
  - vm_compute. reflexivity.
  - reflexivity.
  - reflexivity.
  - reflexivity.
  - right. left. reflexivity.
Defined.

(** ** Persisted before delivered *)

Lemma persisted_before_mono (tbl tbl' : list row) (q : query) :
  tbl ⊆ tbl' → persisted_before tbl q → persisted_before tbl' q.
Proof.
  intros Hsub. unfold persisted_before.
  destruct (q_callback q); [done|].
  intros (Hsql & Hps & Hrow). split; [done|]. split; [done|].
  intros res Hres. destruct (Hrow res Hres) as (i & Hi & Hin).
  exists i. split; [done|]. by apply Hsub.
Qed.

Lemma inflight_ok_init : inflight_ok init.
Proof. intros k q Hk. cbn in Hk. by rewrite lookup_empty in Hk. Qed.

Lemma inflight_ok_submit (w : world) (q : sql) (ps : list jsval) (cb : callback) :
  persisted_before (messages (db w)) (Query q ps cb None) →
  inflight_ok w → inflight_ok (submit q ps cb w).
Proof.
  intros Hnew Hw k q0. unfold submit. cbn. rewrite lookup_insert.
  case_decide; [| apply Hw]. by intros [= <-].
Qed.

Lemma inflight_ok_exec (w : world) (k : nat) (q : query) (fault : option error) :
  inflight w !! k = Some q → inflight_ok w → inflight_ok (exec k q fault w).
Proof.
  intros Hk Hw k' q'. pose proof (Hw k q Hk) as Hq.
  unfold exec.
  destruct (pool_query (q_sql q) (q_params q) fault (db w)) as [d reply] eqn:Hpq.
  cbn.
  assert (Hsub : messages (db w) ⊆ messages d).
  { unfold pool_query in Hpq.
    destruct fault, (q_sql q); injection Hpq as <- <-; cbn; set_solver. }
  rewrite lookup_insert. case_decide.
  - intros [= <-]. unfold persisted_before in *. cbn.
    destruct (q_callback q); [done|]. destruct Hq as (Hsql & Hps & _).
    split; [done|]. split; [done|]. intros res [= ->].
    unfold pool_query in Hpq. rewrite Hsql in Hpq.
    destruct fault; [discriminate|]. injection Hpq as <- <-.
    eexists. split; [reflexivity|]. cbn. set_solver.
  - intros Hk'. eapply persisted_before_mono; [exact Hsub | exact (Hw k' q' Hk')].
Qed.

Lemma inflight_ok_step (w : world) (e : event) :
  inflight_ok w → inflight_ok (step w e).1.
Proof.
  intros Hw.
  destruct e as [c|c|c u|c type mate me|c data now|k fault|k|k e0]; cbn.
  - done.
  - done.
  - by case_bool_decide.
  - case_bool_decide; [|done]. cbn [fst]. unfold on_getMessages.
    destruct (getMessages_query type mate me). by apply inflight_ok_submit.
  - case_bool_decide; [|done]. cbn [fst]. unfold on_sendMessage.
    apply inflight_ok_submit; [|done].
    unfold persisted_before. cbn. split_and!; [done | done | intros res [=]].
  - destruct (inflight w !! k) as [q|] eqn:Hk; [|done].
    destruct (q_reply q); [done|]. by apply inflight_ok_exec.
  - destruct (inflight w !! k) as [q|] eqn:Hk; [|done].
    destruct (q_reply q); [|done]. cbn [fst].
    intros k' q'. unfold retire. cbn. rewrite lookup_delete.
    case_decide; [done | apply Hw].
  - destruct (inflight w !! k) as [q|] eqn:Hk; [|done].
    destruct (q_reply q); [done|]. cbn [fst].
    intros k' q'. unfold lose. cbn. rewrite lookup_insert.
    case_decide; [|apply Hw]. intros [= <-].
    pose proof (Hw k q Hk) as Hq. unfold persisted_before in *. cbn.
    destruct (q_callback q); [done|]. destruct Hq as (? & ? & _).
    split; [done|]. split; [done|]. intros res [=].
Qed.

Lemma inflight_ok_run (evs : list event) (w : world) :
  inflight_ok w → inflight_ok (run w evs).1.
Proof.
  revert w. induction evs as [|e evs IH]; intros w Hw; [done|].
  cbn [run]. pose proof (inflight_ok_step w e Hw) as Hstep.
  destruct (step w e) as [w1 out1]. specialize (IH w1 Hstep).
  by destruct (run w1 evs).
Qed.

(** A message packet can only come out of the reply turn of a
    sendMessage whose insert was answered without error. *)
Lemma message_packet_origin (w : world) (e : event) (c : sid) (ev : string)
    (m : message) :
  Packet c ev (NewMessage m) ∈ (step w e).2 →
  ∃ k q res, e = PgReply k ∧ inflight w !! k = Some q ∧
    q_reply q = Some (None, res) ∧
    q_callback q =
      sendMessage_cb (msg_text m) (msg_sender_username m)
        (msg_receiver_username m) (msg_timestamp m) (msg_type m)
        (msg_file_url m) ∧
    msg_id m = db_run_lastID res.
Proof.
  destruct e as [c0|c0|c0 u|c0 type mate me|c0 data now|k fault|k|k e0]; cbn;
    try (repeat case_bool_decide; cbn; by rewrite ?elem_of_nil).
  - destruct (inflight w !! k) as [q|]; [|by rewrite elem_of_nil].
    destruct (q_reply q); cbn; by rewrite elem_of_nil.
  - destruct (inflight w !! k) as [q|] eqn:Hk; [|by rewrite elem_of_nil].
    destruct (q_reply q) as [[err res]|] eqn:Hreply; [|by rewrite elem_of_nil].
    cbn [snd]. unfold invoke.
    destruct (q_callback q) as [socket|text s r ts ty f] eqn:Hcb.
    + unfold getMessages_callback, socket_emit.
      destruct err; [by rewrite elem_of_nil|].
      case_bool_decide; [|by rewrite elem_of_nil].
      rewrite list_elem_of_singleton. discriminate.
    + destruct err as [e|].
      { cbn. rewrite list_elem_of_singleton. discriminate. }
      intros Hin.
      pose proof (sendMessage_callback_packets w text s r ts ty f
                    (db_run_lastID res)) as Hall.
      rewrite Forall_forall in Hall. destruct (Hall _ Hin) as [c' [= _ _ ->]].
      exists k, q, res. by rewrite Hk, Hreply.
  - destruct (inflight w !! k) as [q|]; [|by rewrite elem_of_nil].
    destruct (q_reply q); cbn; by rewrite elem_of_nil.
Qed.

(** C4: in every run of the server, a turn that sends a message packet
    to a connection is the reply turn of a sendMessage whose insert has
    already been answered without error, and the table already holds, when
    that turn begins, the row of that message under the id the packet
    carries: nothing is delivered that was not persisted first. *)
Theorem delivered_only_after_persisted (evs : list event) (e : event)
    (c : sid) (ev : string) (m : message) :
  Packet c ev (NewMessage m) ∈ (step (run init evs).1 e).2 →
  ∃ k q res i,
    e = PgReply k ∧
    inflight (run init evs).1 !! k = Some q ∧
    q_sql q = INSERT_message ∧
    q_reply q = Some (None, res) ∧
    msg_id m = Some i ∧
    {| id := i;
       text := to_sql (prepareValue (js_or_any (msg_text m) (JStr "")));
       sender_username := to_sql (msg_sender_username m);
       receiver_username := to_sql (js_or (msg_receiver_username m) JNull);
       timestamp := Some (msg_timestamp m);
       type := to_sql (msg_type m);
       file_url := to_sql (msg_file_url m) |}
    ∈ messages (db (run init evs).1).
Proof.
  intros Hin.
  destruct (message_packet_origin _ _ _ _ _ Hin)
    as (k & q & res & -> & Hk & Hreply & Hcb & Hid).
  pose proof (inflight_ok_run evs init inflight_ok_init k q Hk) as Hq.
  unfold persisted_before in Hq. rewrite Hcb in Hq.
  destruct Hq as (Hsql & Hps & Hrow).
  destruct (Hrow res Hreply) as (i & Hi & Hmem).
  exists k, q, res, i. split_and!; try done; [congruence|].
  by rewrite Hps in Hmem.
Qed.

Lemma delivered_only_after_persisted_witness :
  ∃ k q res i,
    PgReply 0 = PgReply k ∧
    inflight (run init [Connection 1; Join 1 alice;
                        SendMessage 1 (hi_to bob) morning; PgExec 0 None]).1
      !! k = Some q ∧
    q_sql q = INSERT_message ∧
    q_reply q = Some (None, res) ∧
    Some 1 = Some i ∧
    Row i (Some "hi") (Some "alice") (Some "bob") (Some "09:05") (Some "text") None
    ∈ messages (db (run init [Connection 1; Join 1 alice;
                       SendMessage 1 (hi_to bob) morning; PgExec 0 None]).1).
Proof.
  apply (delivered_only_after_persisted
    [Connection 1; Join 1 alice; SendMessage 1 (hi_to bob) morning; PgExec 0 None]
    (PgReply 0) 1 "receiveMessage"
    (Message (Some 1) (JStr "hi") alice bob "09:05" (JStr "text") JNull)).
  vm_compute. apply list_elem_of_here.
Defined.

(** * Further properties of the socket handlers *)

(** ** Global history *)

Lemma where_global_null (r : row) :
  is_true (where_global r) = true ↔ receiver_username r = None.
Proof.
  unfold where_global, sql_is_null. cbn. case_bool_decide; naive_solver.
Qed.

(** X1: a history request of type ['global'] by a connected socket [c]
    leaves one query in flight; when the database runs it, the rows are
    the rows of the table without receiver (each once), in ascending order
    of id, whatever [mate] and [me] are; the reply turn sends them in one
    [history] packet to [c] alone. *)
Theorem global_history (w : world) (c : sid) (mate me : jsval) :
  c ∈ sockets w →
  let k := next_query w in
  (step w (GetMessages c (JStr "global") mate me)).2 = [] ∧
  ∃ q, inflight (step w (GetMessages c (JStr "global") mate me)).1 !! k = Some q ∧
       q_reply q = None ∧
    ∀ w1, inflight w1 !! k = Some q →
      ∃ l q1,
        Sorted id_le l ∧
        l ≡ₚ filter (λ r, receiver_username r = None) (messages (db w1)) ∧
        (step w1 (PgExec k None)).2 = [] ∧
        inflight (step w1 (PgExec k None)).1 !! k = Some q1 ∧
        ∀ w2, inflight w2 !! k = Some q1 →
          (step w2 (PgReply k)).2 =
          if bool_decide (c ∈ sockets w2)
          then [Packet c "history" (History (MessageRow <$> l))]
          else [].
Proof.
  intros Hc k.
  rewrite step_GetMessages by done. cbn [fst snd]. split; [done|].
  eexists. split; [apply on_getMessages_inflight|]. split; [done|].
  unfold getMessages_query. rewrite bool_decide_eq_true_2 by done. cbn [fst snd].
  intros w1 Hk1.
  rewrite (step_PgExec w1 k _ None Hk1 eq_refl). cbn [fst snd].
  exists (select_where where_global (messages (db w1))).
  eexists. split_and!.
  - apply select_where_sorted.
  - rewrite select_where_perm.
    by rewrite (list_filter_iff _ (λ r, receiver_username r = None))
      by apply where_global_null.
  - done.
  - unfold exec. cbn. apply lookup_insert_eq.
  - intros w2 Hk2.
    by rewrite (step_PgReply w2 k _ _ Hk2 eq_refl).
Qed.

Lemma global_history_witness :
  ∃ q, inflight (step three_users (GetMessages 3 (JStr "global") JUndefined JUndefined)).1
         !! 0%nat = Some q ∧ q_reply q = None.
Proof.
  destruct (global_history three_users 3 JUndefined JUndefined)
    as (_ & q & Hq & Hr & _).
  - by_evaluation.
  - exists q. split; [exact Hq | exact Hr].
Defined.

(** ** Direct history: both directions, and a missing party *)

Lemma sql_or_comm (a b : tri) : sql_or a b = sql_or b a.
Proof. by destruct a as [[]|], b as [[]|]. Qed.

(** X2: a direct history does not depend on which of the two names is
    [me] and which is [mate]: swapping them yields the same rows in the
    same order. *)
Theorem direct_history_symmetric (type mate me : jsval) (d : database) :
  history_rows type mate me d = history_rows type me mate d.
Proof.
  unfold history_rows, getMessages_query.
  case_bool_decide; cbn; [done|].
  unfold select_where. f_equal. f_equal.
  apply list_filter_iff. intros r. unfold where_direct.
  by rewrite sql_or_comm.
Qed.

Lemma filter_none {A} (P : A → Prop) `{∀ x, Decision (P x)} (l : list A) :
  (∀ x, ¬ P x) → filter P l = [].
Proof.
  intros HP. induction l as [|x l IH]; [done|].
  rewrite filter_cons. by destruct (decide (P x)) as [HPx|]; [destruct (HP x)|].
Qed.

Lemma where_direct_null_param (a b : jsval) (r : row) :
  to_sql a = None ∨ to_sql b = None →
  is_true (where_direct [a; b; b; a] r) = false.
Proof.
  unfold where_direct, param. cbn.
  intros [-> | ->];
    destruct (sender_username r), (receiver_username r),
      (to_sql a), (to_sql b); cbn; repeat case_bool_decide; reflexivity.
Qed.

(** X3: a direct history request in which [me] or [mate] is missing or
    null gets an empty history, whatever the table holds: NULL equals
    nothing, not even the NULL receiver of the global messages. *)
Theorem direct_history_missing_party (type mate me : jsval) (d : database) :
  type ≠ JStr "global" →
  (∀ s, me ≠ JStr s) ∨ (∀ s, mate ≠ JStr s) →
  history_rows type mate me d = [].
Proof.
  intros Htype Hmiss. unfold history_rows, getMessages_query.
  rewrite bool_decide_eq_false_2 by done. cbn.
  unfold select_where. rewrite filter_none; [done|].
  intros r. rewrite where_direct_null_param; [done|].
  destruct Hmiss as [Hme | Hmate].
  - left. destruct me; [done | done | by destruct (Hme s)].
  - right. destruct mate; [done | done | by destruct (Hmate s)].
Qed.

Lemma direct_history_missing_party_witness :
  history_rows (JStr "private") alice JUndefined
    (db (step (reply_due JUndefined) (PgReply 0)).1) = [].
Proof.
  apply (direct_history_missing_party (JStr "private") alice JUndefined).
  - discriminate.
  - left. discriminate.
Defined.

(** ** One packet per connection *)

Lemma NoDup_fanout (event ev : string) (b : body) (X : gset sid) :
  NoDup (omap (packet_to ev) ((λ c, Packet c event b) <$> elements X)).
Proof.
  pose proof (NoDup_elements X) as Hnd.
  induction Hnd as [|c l Hc Hl IH]; cbn; [constructor|].
  case_bool_decide; [|done]. constructor; [|done].
  rewrite list_elem_of_omap. intros (e & He & Hp).
  apply list_elem_of_fmap in He as (c' & -> & Hc').
  cbn in Hp. case_bool_decide; [|done]. by injection Hp as ->.
Qed.

(** X4: no turn of the server sends the same event twice to one
    connection.  In particular a message whose sender and receiver are the
    same name, or a connection that is in both rooms, gets one
    [receiveMessage], not two. *)
Theorem one_packet_per_connection (w : world) (e : event) (ev : string) :
  NoDup (omap (packet_to ev) (step w e).2).
Proof.
  destruct e as [c|c|c u|c type mate me|c data now|k fault|k|k e0]; cbn;
    try (repeat case_bool_decide; cbn; by constructor).
  - destruct (inflight w !! k) as [q|]; [|by constructor].
    destruct (q_reply q); by constructor.
  - destruct (inflight w !! k) as [q|]; [|by constructor].
    destruct (q_reply q) as [[err res]|]; [|by constructor].
    cbn [snd]. unfold invoke.
    destruct (q_callback q) as [socket|text s r ts ty f].
    + unfold getMessages_callback, socket_emit.
      destruct err; [by constructor|].
      case_bool_decide; cbn; [|by constructor].
      case_bool_decide; cbn; [apply NoDup_singleton | constructor].
    + unfold sendMessage_callback, io_emit, io_to_to_emit.
      destruct err; [by constructor|].
      destruct (truthy r); cbn; apply NoDup_fanout.
  - destruct (inflight w !! k) as [q|]; [|by constructor].
    destruct (q_reply q); by constructor.
Qed.

(** ** The rooms and [socket.username] over a run *)

Lemma registered_is_connected (past : list event) (c : sid) (u : jsval) :
  registered_after past c u = true → connected_after past c = true.
Proof.
  induction past as [|e past IH]; [done|].
  destruct e as [c'|c'|c' u'|c' type mate me|c' data now|k fault|k|k e0]; cbn;
    try exact IH.
  - rewrite orb_true_iff. auto.
  - rewrite !andb_true_iff. naive_solver.
  - rewrite orb_true_iff, !andb_true_iff. naive_solver.
Qed.

(** X5: in every run of the server, the members of the room of [u] are
    exactly the connections that have issued [join(u)] since they last
    connected, and every one of them is a connected socket. *)
Theorem rooms_are_the_registry (evs : list event) (c : sid) (u : jsval) :
  (c ∈ connectionsFor (run init evs).1 u ↔
   registered_after (rev evs) c u = true) ∧
  (c ∈ connectionsFor (run init evs).1 u → c ∈ sockets (run init evs).1).
Proof.
  split; [apply connectionsFor_run|].
  rewrite connectionsFor_run, sockets_run. apply registered_is_connected.
Qed.

Lemma username_step (w : world) (e : event) :
  (∀ c u, e ≠ Join c u) → (∀ c, e ≠ Disconnect c) →
  username (step w e).1 = username w.
Proof.
  intros Hj Hd.
  destruct e as [c|c|c u|c type mate me|c data now|k fault|k|k e0]; cbn.
  - done.
  - by destruct (Hd c).
  - by destruct (Hj c u).
  - case_bool_decide; [|done]. unfold on_getMessages.
    by destruct (getMessages_query type mate me).
  - by case_bool_decide.
  - destruct (inflight w !! k) as [q|]; [|done].
    destruct (q_reply q); [done|]. unfold exec.
    by destruct (pool_query (q_sql q) (q_params q) fault (db w)).
  - destruct (inflight w !! k) as [q|]; [|done]. by destruct (q_reply q).
  - destruct (inflight w !! k) as [q|]; [|done]. by destruct (q_reply q).
Qed.

Lemma username_ok_step (w : world) (e : event) :
  username_ok w → username_ok (step w e).1.
Proof.
  intros Hw c u.
  destruct e as [c'|c'|c' u'|c' type mate me|c' data now|k fault|k|k e0];
    try (rewrite username_step by done; unfold connectionsFor;
         rewrite rooms_step, sockets_step by done; apply Hw).
  - cbn. intros Hu. destruct (Hw c u Hu). split; [set_solver | done].
  - cbn [step fst]. rewrite connectionsFor_disconnect. cbn.
    rewrite lookup_delete. case_decide; [done|].
    intros Hu. destruct (Hw c u Hu). set_solver.
  - cbn. case_bool_decide as Hc'; [|apply Hw]. cbn [fst].
    rewrite connectionsFor_on_join. cbn. rewrite lookup_insert.
    case_decide as Hcc.
    + intros [= <-]. subst c'. rewrite decide_True by done. set_solver.
    + intros Hu. destruct (Hw c u Hu). case_decide; set_solver.
Qed.

Lemma username_ok_run (evs : list event) (w : world) :
  username_ok w → username_ok (run w evs).1.
Proof.
  revert w. induction evs as [|e evs IH]; intros w Hw; [done|].
  cbn [run]. pose proof (username_ok_step w e Hw) as Hstep.
  destruct (step w e) as [w1 out1]. specialize (IH w1 Hstep).
  by destruct (run w1 evs).
Qed.

(** X6: in every run of the server, a socket whose [username] property
    is set is connected and is a member of the room of that name: the
    handler sets the property only together with the join, and the latest
    join wins. *)
Theorem socket_username_is_a_joined_room (evs : list event) (c : sid)
    (u : jsval) :
  username (run init evs).1 !! c = Some u →
  c ∈ sockets (run init evs).1 ∧ c ∈ connectionsFor (run init evs).1 u.
Proof.
  apply (username_ok_run evs init). intros c' u' Hu. cbn in Hu.
  by rewrite lookup_empty in Hu.
Qed.

Lemma socket_username_is_a_joined_room_witness :
  1%nat ∈ sockets (run init [Connection 1; Join 1 alice; Join 1 bob]).1 ∧
  1%nat ∈ connectionsFor (run init [Connection 1; Join 1 alice; Join 1 bob]).1 bob.
Proof.
  apply (socket_username_is_a_joined_room
           [Connection 1; Join 1 alice; Join 1 bob] 1 bob).
  vm_compute. reflexivity.
Defined.

(** ** The table over a run *)

Lemma messages_step (w : world) (e : event) :
  messages (db w) `prefix_of` messages (db (step w e).1).
Proof.
  destruct e as [c|c|c u|c type mate me|c data now|k fault|k|k e0]; cbn;
    try done; try (by case_bool_decide).
  - case_bool_decide; [|done]. unfold on_getMessages.
    by destruct (getMessages_query type mate me).
  - destruct (inflight w !! k) as [q|]; [|done].
    destruct (q_reply q); [done|]. unfold exec, pool_query.
    destruct fault; [by destruct (q_sql q)|].
    destruct (q_sql q); cbn; [done | done |].
    by eexists.
  - destruct (inflight w !! k) as [q|]; [|done]. by destruct (q_reply q).
  - destruct (inflight w !! k) as [q|]; [|done]. by destruct (q_reply q).
Qed.

Lemma messages_run (w : world) (evs : list event) :
  messages (db w) `prefix_of` messages (db (run w evs).1).
Proof.
  revert w. induction evs as [|e evs IH]; intros w; [done|].
  cbn [run]. pose proof (messages_step w e) as Hstep.
  destruct (step w e) as [w1 out1]. specialize (IH w1).
  destruct (run w1 evs) as [w2 out2]. cbn [fst] in *.
  by etrans.
Qed.

(** X7: the socket handlers only ever append to the [messages] table:
    after any further events the table still begins with the rows it had,
    unchanged and in the same order, and a turn that is not the database
    running a statement successfully leaves the rows of the table as they
    are (a failed insert moves the id sequence, not the table). *)
Theorem messages_append_only (w : world) (evs : list event) :
  messages (db w) `prefix_of` messages (db (run w evs).1) ∧
  (∀ e, (∀ k, e ≠ PgExec k None) →
     messages (db (step w e).1) = messages (db w)).
Proof.
  split; [apply messages_run|].
  intros e Hne.
  destruct e as [c|c|c u|c type mate me|c data now|k fault|k|k e0]; cbn;
    try done; try (by case_bool_decide).
  - case_bool_decide; [|done]. unfold on_getMessages.
    by destruct (getMessages_query type mate me).
  - destruct (inflight w !! k) as [q|]; [|done].
    destruct (q_reply q); [done|]. unfold exec, pool_query.
    destruct fault; [by destruct (q_sql q) | by destruct (Hne k)].
  - destruct (inflight w !! k) as [q|]; [|done]. by destruct (q_reply q).
  - destruct (inflight w !! k) as [q|]; [|done]. by destruct (q_reply q).
Qed.

Lemma serial_ok_pool_query (q : sql) (ps : list jsval) (fault : option error)
    (d : database) :
  serial_ok d → serial_ok (pool_query q ps fault d).1.
Proof.
  intros [Hs Hb]. unfold pool_query.
  destruct fault as [e|].
  { destruct q; cbn; try done. split; [done|]. cbn.
    eapply Forall_impl; [exact Hb|]. cbn. intros r Hr. lia. }
  destruct q; cbn; [done | done |].
  split; cbn.
  - apply StronglySorted_app_2; [| done | repeat constructor].
    intros r1 r2 Hr1 Hr2. apply list_elem_of_singleton in Hr2 as ->.
    rewrite Forall_forall in Hb. unfold id_lt. cbn. by apply Hb.
  - apply Forall_app. split.
    + eapply Forall_impl; [exact Hb|]. cbn. intros r Hr. lia.
    + constructor; [cbn; lia | constructor].
Qed.

Lemma serial_ok_step (w : world) (e : event) :
  serial_ok (db w) → serial_ok (db (step w e).1).
Proof.
  intros Hw.
  destruct e as [c|c|c u|c type mate me|c data now|k fault|k|k e0]; cbn;
    try done; try (by case_bool_decide).
  - case_bool_decide; [|done]. unfold on_getMessages.
    by destruct (getMessages_query type mate me).
  - destruct (inflight w !! k) as [q|]; [|done].
    destruct (q_reply q); [done|]. unfold exec.
    pose proof (serial_ok_pool_query (q_sql q) (q_params q) fault (db w) Hw).
    by destruct (pool_query (q_sql q) (q_params q) fault (db w)).
  - destruct (inflight w !! k) as [q|]; [|done]. by destruct (q_reply q).
  - destruct (inflight w !! k) as [q|]; [|done]. by destruct (q_reply q).
Qed.

Lemma serial_ok_run (evs : list event) (w : world) :
  serial_ok (db w) → serial_ok (db (run w evs).1).
Proof.
  revert w. induction evs as [|e evs IH]; intros w Hw; [done|].
  cbn [run]. pose proof (serial_ok_step w e Hw) as Hstep.
  destruct (step w e) as [w1 out1]. specialize (IH w1 Hstep).
  by destruct (run w1 evs).
Qed.

Lemma serial_ok_init : serial_ok (db init).
Proof. split; constructor. Qed.

Lemma StronglySorted_same_id (l : list row) (r1 r2 : row) :
  StronglySorted id_lt l → r1 ∈ l → r2 ∈ l → id r1 = id r2 → r1 = r2.
Proof.
  induction 1 as [|r l Hl IH Hr]; [by intros ?%elem_of_nil|].
  rewrite Forall_forall in Hr. unfold id_lt in Hr.
  intros [->|H1]%elem_of_cons [->|H2]%elem_of_cons Hid; [done | | | by apply IH].
  - specialize (Hr _ H2). lia.
  - specialize (Hr _ H1). lia.
Qed.

Lemma StronglySorted_filter_id (P : row → Prop) `{∀ r, Decision (P r)}
    (l : list row) :
  StronglySorted id_lt l → StronglySorted id_le (filter P l).
Proof.
  induction 1 as [|r l Hl IH Hr]; [constructor|].
  rewrite filter_cons. destruct (decide (P r)); [|done].
  constructor; [done|]. rewrite Forall_forall in *.
  intros r' [_ Hr']%list_elem_of_filter. specialize (Hr _ Hr').
  unfold id_lt, id_le in *. lia.
Qed.

(** X8: in every run of the server the ids of the table are strictly
    increasing in insertion order, so [ORDER BY id ASC] returns the
    selected rows in the order in which they were inserted. *)
Theorem history_in_insertion_order (evs : list event) (cond : row → tri) :
  StronglySorted id_lt (messages (db (run init evs).1)) ∧
  select_where cond (messages (db (run init evs).1)) =
  filter (λ r, is_true (cond r) = true) (messages (db (run init evs).1)).
Proof.
  destruct (serial_ok_run evs init serial_ok_init) as [Hs _].
  split; [done|].
  apply (StronglySorted_unique_strong id_le).
  - intros r1 r2 Hr1 Hr2 H12 H21.
    apply elem_of_select_where in Hr1 as [_ Hr1].
    apply list_elem_of_filter in Hr2 as [_ Hr2].
    apply (StronglySorted_same_id _ r1 r2 Hs Hr1 Hr2).
    unfold id_le in *. lia.
  - unfold select_where, order_by_id. apply (StronglySorted_merge_sort id_le).
  - by apply StronglySorted_filter_id.
  - apply select_where_perm.
Qed.

(** ** Delivered, hence in the history *)

(** The row of a message that a turn delivers is in the table when that
    turn begins. *)
Lemma packet_row (evs : list event) (e : event) (c : sid) (ev : string)
    (m : message) :
  Packet c ev (NewMessage m) ∈ (step (run init evs).1 e).2 →
  ∃ i, msg_id m = Some i ∧
    {| id := i;
       text := to_sql (prepareValue (js_or_any (msg_text m) (JStr "")));
       sender_username := to_sql (msg_sender_username m);
       receiver_username := to_sql (js_or (msg_receiver_username m) JNull);
       timestamp := Some (msg_timestamp m);
       type := to_sql (msg_type m);
       file_url := to_sql (msg_file_url m) |}
    ∈ messages (db (run init evs).1).
Proof.
  intros Hin.
  destruct (message_packet_origin _ _ _ _ _ Hin)
    as (k & q & res & -> & Hk & Hreply & Hcb & Hid).
  pose proof (inflight_ok_run evs init inflight_ok_init k q Hk) as Hq.
  unfold persisted_before in Hq. rewrite Hcb in Hq.
  destruct Hq as (Hsql & Hps & Hrow).
  destruct (Hrow res Hreply) as (i & Hi & Hmem).
  exists i. split; [congruence|]. by rewrite Hps in Hmem.
Qed.

Lemma elem_of_history_rows_global (d : database) (r : row) (mate me : jsval) :
  r ∈ messages d → receiver_username r = None →
  MessageRow r ∈ history_rows (JStr "global") mate me d.
Proof.
  intros Hr Hnull. unfold history_rows. cbn.
  apply list_elem_of_fmap. exists r. split; [done|].
  apply elem_of_select_where. split; [|done]. by apply where_global_null.
Qed.

Lemma elem_of_history_rows_direct (d : database) (r : row) (type : jsval)
    (a b : string) :
  r ∈ messages d → type ≠ JStr "global" → between a b r →
  MessageRow r ∈ history_rows type (JStr b) (JStr a) d.
Proof.
  intros Hr Htype Hab. unfold history_rows, getMessages_query.
  rewrite bool_decide_eq_false_2 by done. cbn.
  apply list_elem_of_fmap. exists r. split; [done|].
  apply elem_of_select_where. split; [|done]. by apply where_direct_between.
Qed.

(** ** A message nobody can load *)

Lemma where_direct_null_sender (params : list jsval) (r : row) :
  sender_username r = None → is_true (where_direct params r) = false.
Proof.
  intros Hs. unfold where_direct. rewrite Hs. cbn.
  by destruct (sql_eq (receiver_username r) (param params 2)) as [[]|],
              (sql_eq (receiver_username r) (param params 4)) as [[]|].
Qed.

Lemma orphan_row (d : database) (r : row) (type mate me : jsval) :
  sender_username r = None → receiver_username r ≠ None →
  MessageRow r ∉ history_rows type mate me d.
Proof.
  intros Hs Hr. unfold history_rows, getMessages_query.
  case_bool_decide; cbn;
    intros Hin; apply list_elem_of_fmap in Hin as (r' & [= <-] & Hin);
    apply elem_of_select_where in Hin as [Hcond _].
  - by apply where_global_null in Hcond.
  - by rewrite where_direct_null_sender in Hcond.
Qed.

(** X10: a sendMessage whose payload has a non-empty receiver but no
    sender (absent or null) is stored and, on success, delivered to the
    receiver's room like any direct message, yet the row it stores is
    returned by no history request whatever: not by a global one (it has
    a receiver), not by a direct one (its sender is NULL). *)
Theorem message_without_sender_in_no_history (w : world) (c : sid)
    (data : send_data) (now : Date) :
  c ∈ sockets w →
  (∀ s, data_sender_username data ≠ JStr s) →
  truthy (data_receiver_username data) = true →
  let k := next_query w in
  ∃ q, inflight (step w (SendMessage c data now)).1 !! k = Some q ∧
       q_reply q = None ∧
    ∀ w1, inflight w1 !! k = Some q →
      ∃ r q1,
        messages (db (step w1 (PgExec k None)).1) = (messages (db w1) ++ [r])%list ∧
        (∀ d type mate me, MessageRow r ∉ history_rows type mate me d) ∧
        inflight (step w1 (PgExec k None)).1 !! k = Some q1 ∧
        ∀ w2, inflight w2 !! k = Some q1 →
          recipients "receiveMessage" (step w2 (PgReply k)).2 =
          connectionsFor w2 (data_sender_username data) ∪
          connectionsFor w2 (data_receiver_username data).
Proof.
  intros Hc Hs Hr k.
  rewrite step_SendMessage by done. cbn [fst].
  eexists. split; [apply on_sendMessage_inflight|]. split; [done|].
  intros w1 Hk1.
  rewrite (step_PgExec w1 k _ None Hk1 eq_refl). cbn [fst].
  edestruct (exec_insert w1 k) as [Hm Hq1]; [|do 2 eexists; split_and!;
    [exact Hm | | exact Hq1 | ]]; try reflexivity.
  - intros d type mate me. apply orphan_row; cbn.
    + destruct (data_sender_username data) as [| |s]; [done | done |].
      by destruct (Hs s).
    + unfold js_or. rewrite Hr.
      by destruct (data_receiver_username data).
  - intros w2 Hk2.
    rewrite (step_PgReply w2 k _ _ Hk2 eq_refl). cbn [snd q_callback].
    by apply invoke_direct_recipients.
Qed.

Lemma message_without_sender_in_no_history_witness :
  ∃ q, inflight (step three_users
                   (SendMessage 3
                      (SendData (JStr "psst") JUndefined bob JUndefined
                         JUndefined JUndefined) morning)).1 !! 0%nat = Some q ∧
       q_reply q = None.
Proof.
  destruct (message_without_sender_in_no_history three_users 3
              (SendData (JStr "psst") JUndefined bob JUndefined JUndefined
                 JUndefined) morning)
    as (q & Hq & Hr & _).
  - by_evaluation.
  - intros s. discriminate.
  - reflexivity.
  - exists q. split; [exact Hq | exact Hr].
Defined.

(** * The HTTP routes *)

(** ** Scenarios *)

(** Alice and bob register, alice asks, bob accepts, the issued insert
    runs: each is in the other's list of friends. *)
Example scenario_friends :
  let h := http_run http_init
    [POST_register alice (JStr "secret") "$2a$1" None;
     POST_register bob (JStr "hunter2") "$2a$2" None;
     POST_friends alice bob None;
     PUT_friends_respond bob alice (JStr "accept") None;
     Run_pending 0 None] in
  get_friends alice None (http_store h) =
    Response 200 (J_rows [(Some "bob", Some default_avatar)]) ∧
  get_friends bob None (http_store h) =
    Response 200 (J_rows [(Some "alice", Some default_avatar)]) ∧
  get_friends_requests bob None (http_store h) = Response 200 (J_rows []) ∧
  http_pending h = [].
Proof. vm_compute. done. Qed.

(** Before the issued insert has run, only alice has a friend. *)
Example scenario_friends_half_way :
  let h := http_run http_init
    [POST_register alice (JStr "secret") "$2a$1" None;
     POST_register bob (JStr "hunter2") "$2a$2" None;
     POST_friends alice bob None;
     PUT_friends_respond bob alice (JStr "accept") None] in
  get_friends alice None (http_store h) =
    Response 200 (J_rows [(Some "bob", Some default_avatar)]) ∧
  get_friends bob None (http_store h) = Response 200 (J_rows []).
Proof. vm_compute. done. Qed.

(** A second account cannot take alice's name, by registration or by
    rename. *)
Example scenario_name_taken :
  let h := http_run http_init
    [POST_register alice (JStr "secret") "$2a$1" None;
     POST_register bob (JStr "hunter2") "$2a$2" None] in
  (http_step h (POST_register alice (JStr "x") "$2a$3" None)).2 =
    Some (Response 400 (J_error "Пользователь уже существует")) ∧
  (http_step h (PUT_user_profile bob alice JUndefined None)).2 =
    Some (Response 400 (J_error "Этот ник занят или ошибка обновления")).
Proof. vm_compute. done. Qed.

(** ** Comparisons with a string *)

Lemma truthy_JStr (s : string) : s ≠ "" → truthy (JStr s) = true.
Proof. intros Hs. cbn. by apply negb_true_iff, String.eqb_neq. Qed.

Lemma is_true_sql_eq (a : sqlval) (s : string) :
  is_true (sql_eq a (Some s)) = true ↔ a = Some s.
Proof.
  destruct a as [x|]; cbn; [|done]. case_bool_decide; naive_solver.
Qed.

Lemma is_true_sql_eq_false (a : sqlval) (s : string) :
  is_true (sql_eq a (Some s)) = false ↔ a ≠ Some s.
Proof.
  rewrite <- is_true_sql_eq. by destruct (is_true (sql_eq a (Some s))).
Qed.

Lemma is_true_sql_and (a b : tri) :
  is_true (sql_and a b) = true ↔ is_true a = true ∧ is_true b = true.
Proof. destruct a as [[]|], b as [[]|]; cbn; naive_solver. Qed.

Lemma sql_and_false_r (a : tri) : sql_and a (Some false) = Some false.
Proof. by destruct a as [[]|]. Qed.

Lemma store_eta (st : store) : Store (users st) (friends st) (msgs st) = st.
Proof. by destruct st. Qed.

(** ** Accounts *)

Lemma elem_of_usernames (us : list user) (name : string) :
  name ∈ omap u_username us ↔ ∃ u, u ∈ us ∧ u_username u = Some name.
Proof. apply list_elem_of_omap. Qed.

Lemma users_unique_snoc (us : list user) (name : string) (pw av : sqlval) :
  users_unique (us ++ [User (Some name) pw av]) ↔
  users_unique us ∧ ∀ u, u ∈ us → u_username u ≠ Some name.
Proof.
  unfold users_unique. rewrite omap_app. cbn. rewrite NoDup_app.
  split.
  - intros (Hus & Hfresh & _). split; [done|]. intros u Hu Hname.
    apply (Hfresh name); [|by apply list_elem_of_singleton].
    apply elem_of_usernames. by exists u.
  - intros [Hus Hfresh]. split_and!; [done | | apply NoDup_singleton].
    intros x Hx ->%list_elem_of_singleton.
    apply elem_of_usernames in Hx as (u & Hu & Hname). by apply (Hfresh u).
Qed.

Lemma select_user_fresh (us : list user) (name : string) :
  (∀ u, u ∈ us → u_username u ≠ Some name) → select_user (Some name) us = [].
Proof.
  intros Hfresh. unfold select_user. induction us as [|u us IH]; [done|].
  rewrite filter_cons. destruct (decide _) as [Heq|_].
  - apply is_true_sql_eq in Heq. destruct (Hfresh u); [by left | done].
  - apply IH. intros u' Hu'. apply Hfresh. by right.
Qed.

Lemma select_user_snoc (us : list user) (name : string) (pw av : sqlval) :
  (∀ u, u ∈ us → u_username u ≠ Some name) →
  select_user (Some name) (us ++ [User (Some name) pw av]) =
  [User (Some name) pw av].
Proof.
  intros Hfresh. unfold select_user. rewrite filter_app.
  fold (select_user (Some name) us). rewrite select_user_fresh by done.
  rewrite app_nil_l, filter_cons_True; [done|]. by apply is_true_sql_eq.
Qed.

(** X11: registering a free, non-empty username with a non-empty password
    answers success and stores the account with the default avatar; from
    then on a login with that password succeeds and returns the username
    and the default avatar, a login with a password that bcrypt does not
    match is refused, and [GET /user/<name>] finds the account. *)
Theorem register_then_login (compare : jsval → sqlval → option bool)
    (st : store) (name password hashed : string) :
  name ≠ "" → password ≠ "" →
  users_unique (users st) →
  (∀ u, u ∈ users st → u_username u ≠ Some name) →
  compare (JStr password) (Some hashed) = Some true →
  ∃ st1,
    register (JStr name) (JStr password) hashed None st =
      (st1, Response 200 (J_registered (JStr name))) ∧
    users st1 = (users st ++ [User (Some name) (Some hashed) (Some default_avatar)])%list ∧
    login compare (JStr name) (JStr password) None st1 =
      Some (Response 200 (J_logged_in (Some name) (Some default_avatar))) ∧
    (∀ wrong, compare wrong (Some hashed) = Some false →
       login compare (JStr name) wrong None st1 =
         Some (Response 400 (J_error "Неверный пароль"))) ∧
    get_user name None st1 =
      Response 200 (J_user (Some name) (Some default_avatar)).
Proof.
  intros Hname Hpw Huniq Hfresh Hcmp.
  unfold register. rewrite !truthy_JStr by done. cbn [negb orb to_sql].
  unfold insert_user, checked.
  rewrite decide_True by (by apply users_unique_snoc).
  eexists. split; [reflexivity|]. split; [reflexivity|].
  unfold login, get_user, db_get. cbn [users to_sql].
  rewrite select_user_snoc by done. cbn. rewrite Hcmp.
  split; [done|]. split; [|done]. intros wrong Hwrong. by rewrite Hwrong.
Qed.

Lemma register_then_login_witness :
  ∃ st1,
    register (JStr "alice") (JStr "secret") "$2a$secret" None
      (Store [] [] (Database [] 1)) =
      (st1, Response 200 (J_registered (JStr "alice"))).
Proof.
  destruct (register_then_login
              (λ p h, Some (bool_decide (p = JStr "secret" ∧ h = Some "$2a$secret")))
              (Store [] [] (Database [] 1)) "alice" "secret" "$2a$secret")
    as (st1 & Hreg & _).
  - discriminate.
  - discriminate.
  - constructor.
  - intros u Hu. by apply elem_of_nil in Hu.
  - reflexivity.
  - exists st1. exact Hreg.
Defined.

(** X12: registering a username that some account already has answers
    400 "user already exists" and leaves the store exactly as it was,
    whatever the password; a failure of the database is answered in the
    same words. *)
Theorem register_taken (st : store) (name password hashed : string)
    (fault : option error) :
  name ≠ "" → password ≠ "" →
  (∃ u, u ∈ users st ∧ u_username u = Some name) →
  register (JStr name) (JStr password) hashed fault st =
    (st, Response 400 (J_error "Пользователь уже существует")).
Proof.
  intros Hname Hpw (u & Hu & Hu_name).
  unfold register. rewrite !truthy_JStr by done. cbn [negb orb to_sql].
  unfold insert_user, checked. destruct fault as [e|].
  { by rewrite store_eta. }
  rewrite decide_False; [by rewrite store_eta|].
  rewrite users_unique_snoc. intros [_ Hfresh]. by apply (Hfresh u).
Qed.

Lemma register_taken_witness :
  register (JStr "alice") (JStr "other") "$2a$other" None
    (Store [User (Some "alice") (Some "$2a$secret") (Some default_avatar)] []
       (Database [] 1)) =
  (Store [User (Some "alice") (Some "$2a$secret") (Some default_avatar)] []
     (Database [] 1),
   Response 400 (J_error "Пользователь уже существует")).
Proof.
  apply (register_taken
    (Store [User (Some "alice") (Some "$2a$secret") (Some default_avatar)] []
       (Database [] 1)) "alice" "other" "$2a$other" None).
  - discriminate.
  - discriminate.
  - eexists. split; [apply list_elem_of_here | reflexivity].
Defined.

(** ** Friend requests *)

Lemma friend_key_Some (f : friendship) (a b : string) :
  friend_key f = Some (a, b) ↔
  f_user_username f = Some a ∧ f_friend_username f = Some b.
Proof.
  unfold friend_key.
  destruct (f_user_username f), (f_friend_username f); naive_solver.
Qed.

Lemma friend_row_is_key (a b : string) (f : friendship) :
  friend_row_is (Some a) (Some b) f = true ↔ friend_key f = Some (a, b).
Proof.
  unfold friend_row_is.
  by rewrite is_true_sql_and, !is_true_sql_eq, friend_key_Some.
Qed.

Lemma friends_unique_snoc (fs : list friendship) (a b : string) (s : sqlval) :
  friends_unique (fs ++ [Friendship (Some a) (Some b) s]) ↔
  friends_unique fs ∧ ∀ f, f ∈ fs → friend_key f ≠ Some (a, b).
Proof.
  unfold friends_unique. rewrite omap_app. cbn. rewrite NoDup_app.
  split.
  - intros (Hfs & Hfresh & _). split; [done|]. intros f Hf Hkey.
    apply (Hfresh (a, b)); [|by apply list_elem_of_singleton].
    apply list_elem_of_omap. by exists f.
  - intros [Hfs Hfresh]. split_and!; [done | | apply NoDup_singleton].
    intros x Hx ->%list_elem_of_singleton.
    apply list_elem_of_omap in Hx as (f & Hf & Hkey). by apply (Hfresh f).
Qed.

Lemma elem_of_select_friends (user : string) (st : store) (x : sqlval * sqlval) :
  x ∈ select_friends (Some user) st ↔
  ∃ f u, f ∈ friends st ∧ u ∈ users st ∧
    f_user_username f = Some user ∧ f_status f = Some "accepted" ∧
    f_friend_username f = u_username u ∧ u_username u ≠ None ∧
    x = (u_username u, u_avatar_url u).
Proof.
  unfold select_friends. rewrite list_elem_of_bind. split.
  - intros (f & Hx & Hf). destruct (is_true _) eqn:Hcond in Hx;
      [|by apply elem_of_nil in Hx].
    apply is_true_sql_and in Hcond as [Hu Hs].
    apply is_true_sql_eq in Hu, Hs.
    apply list_elem_of_bind in Hx as (u & Hx & Hu').
    destruct (is_true _) eqn:Hjoin in Hx; [|by apply elem_of_nil in Hx].
    apply list_elem_of_singleton in Hx. exists f, u. split_and!; try done.
    + destruct (f_friend_username f), (u_username u); cbn in Hjoin;
        try done. case_bool_decide; naive_solver.
    + by destruct (f_friend_username f), (u_username u).
  - intros (f & u & Hf & Hu & Huser & Hstatus & Hjoin & Hnn & ->).
    exists f. split; [|done].
    rewrite (proj2 (is_true_sql_and _ _))
      by (by rewrite !is_true_sql_eq).
    apply list_elem_of_bind. exists u. split; [|done].
    rewrite Hjoin. destruct (u_username u) as [n|]; [|done]. cbn.
    rewrite bool_decide_eq_true_2 by done. by apply list_elem_of_singleton.
Qed.

Lemma elem_of_select_requests (user : string) (st : store) (x : sqlval * sqlval) :
  x ∈ select_requests (Some user) st ↔
  ∃ f u, f ∈ friends st ∧ u ∈ users st ∧
    f_friend_username f = Some user ∧ f_status f = Some "pending" ∧
    f_user_username f = u_username u ∧ u_username u ≠ None ∧
    x = (u_username u, u_avatar_url u).
Proof.
  unfold select_requests. rewrite list_elem_of_bind. split.
  - intros (f & Hx & Hf). destruct (is_true _) eqn:Hcond in Hx;
      [|by apply elem_of_nil in Hx].
    apply is_true_sql_and in Hcond as [Hu Hs].
    apply is_true_sql_eq in Hu, Hs.
    apply list_elem_of_bind in Hx as (u & Hx & Hu').
    destruct (is_true _) eqn:Hjoin in Hx; [|by apply elem_of_nil in Hx].
    apply list_elem_of_singleton in Hx. exists f, u. split_and!; try done.
    + destruct (f_user_username f), (u_username u); cbn in Hjoin;
        try done. case_bool_decide; naive_solver.
    + by destruct (f_user_username f), (u_username u).
  - intros (f & u & Hf & Hu & Huser & Hstatus & Hjoin & Hnn & ->).
    exists f. split; [|done].
    rewrite (proj2 (is_true_sql_and _ _))
      by (by rewrite !is_true_sql_eq).
    apply list_elem_of_bind. exists u. split; [|done].
    rewrite Hjoin. destruct (u_username u) as [n|]; [|done]. cbn.
    rewrite bool_decide_eq_true_2 by done. by apply list_elem_of_singleton.
Qed.

(** X13: a friend request from [a] to another name [b], when no row
    from [a] to [b] exists yet, is answered "request sent" and stored as
    pending: [b]'s list of requests then shows [a] (if [a] is a registered
    user), nobody's list of friends changes, and sending the same request
    again is answered "already sent" and changes nothing. *)
Theorem friend_request_is_listed (st : store) (a b : string) (ua : user) :
  a ≠ b →
  friends_unique (friends st) →
  (∀ f, f ∈ friends st → friend_key f ≠ Some (a, b)) →
  ua ∈ users st → u_username ua = Some a →
  ∃ st1,
    post_friends (JStr a) (JStr b) None st =
      (st1, Response 200 (J_result true "Запрос отправлен")) ∧
    (Some a, u_avatar_url ua) ∈ select_requests (Some b) st1 ∧
    (∀ user, select_friends user st1 = select_friends user st) ∧
    (∀ fault, post_friends (JStr a) (JStr b) fault st1 =
                (st1, Response 200 (J_result false "Запрос уже отправлен"))).
Proof.
  intros Hab Huniq Hfresh Hua Hname.
  assert (Hne : JStr a ≠ JStr b) by congruence.
  unfold post_friends. rewrite !bool_decide_eq_false_2 by done.
  unfold insert_friend, checked. cbn [to_sql].
  rewrite decide_True by (by apply friends_unique_snoc).
  eexists. split; [reflexivity|]. split_and!.
  - apply elem_of_select_requests.
    exists (Friendship (Some a) (Some b) (Some "pending")), ua.
    split_and!; cbn; try done.
    + apply elem_of_app. right. apply list_elem_of_here.
    + by rewrite Hname.
    + by rewrite Hname.
  - intros user. unfold select_friends. cbn [friends users].
    rewrite bind_app. cbn [mbind list_bind foldr f_user_username f_status].
    change (sql_eq (Some "pending") (Some "accepted")) with (Some false).
    rewrite sql_and_false_r. cbn. by rewrite !app_nil_r.
  - intros fault. cbn [friends users msgs]. destruct fault as [e|]; [done|].
    rewrite decide_False; [done|].
    rewrite friends_unique_snoc. intros [_ Hfresh'].
    apply (Hfresh' (Friendship (Some a) (Some b) (Some "pending"))).
    + apply elem_of_app. right. apply list_elem_of_here.
    + done.
Qed.

Lemma friend_request_is_listed_witness :
  ∃ st1,
    post_friends (JStr "alice") (JStr "bob") None
      (Store [User (Some "alice") (Some "$2a$secret") (Some default_avatar)] []
         (Database [] 1)) =
      (st1, Response 200 (J_result true "Запрос отправлен")).
Proof.
  destruct (friend_request_is_listed
    (Store [User (Some "alice") (Some "$2a$secret") (Some default_avatar)] []
       (Database [] 1)) "alice" "bob"
    (User (Some "alice") (Some "$2a$secret") (Some default_avatar)))
    as (st1 & Hpost & _).
  - discriminate.
  - constructor.
  - intros f Hf. by apply elem_of_nil in Hf.
  - apply list_elem_of_here.
  - reflexivity.
  - exists st1. exact Hpost.
Defined.

(** ** Answering a friend request *)

Lemma friend_key_accept_row (a b : sqlval) (f : friendship) :
  friend_key (accept_row a b f) = friend_key f.
Proof. unfold accept_row. by destruct (friend_row_is a b f). Qed.

Lemma friend_keys_accept (a b : sqlval) (fs : list friendship) :
  omap friend_key (accept_row a b <$> fs) = omap friend_key fs.
Proof.
  induction fs as [|f fs IH]; [done|]. cbn.
  by rewrite friend_key_accept_row, IH.
Qed.

Lemma fmap_id_on {A} (g : A → A) (l : list A) :
  (∀ x, x ∈ l → g x = x) → g <$> l = l.
Proof.
  induction l as [|x l IH]; [done|]. intros Hg. cbn. f_equal.
  - apply Hg. by left.
  - apply IH. intros y Hy. apply Hg. by right.
Qed.

Lemma friends_unique_same_key (fs : list friendship) (f1 f2 : friendship)
    (k : string * string) :
  friends_unique fs → f1 ∈ fs → f2 ∈ fs →
  friend_key f1 = Some k → friend_key f2 = Some k → f1 = f2.
Proof.
  unfold friends_unique. induction fs as [|f fs IH]; [by intros _ ?%elem_of_nil|].
  cbn. intros Hnd [->|H1]%elem_of_cons [->|H2]%elem_of_cons Hk1 Hk2; [done | | |].
  - rewrite Hk1 in Hnd. apply NoDup_cons in Hnd as [Hnotin _].
    destruct Hnotin. apply list_elem_of_omap. by exists f2.
  - rewrite Hk2 in Hnd. apply NoDup_cons in Hnd as [Hnotin _].
    destruct Hnotin. apply list_elem_of_omap. by exists f1.
  - apply IH; try done. destruct (friend_key f); [|done].
    by apply NoDup_cons in Hnd as [_ Hnd].
Qed.

Lemma elem_of_accept (a b : string) (fs : list friendship) (f : friendship) :
  f ∈ accept_row (Some a) (Some b) <$> fs →
  ∃ f0, f0 ∈ fs ∧ friend_key f0 = friend_key f ∧
    (friend_key f0 ≠ Some (a, b) → f = f0).
Proof.
  intros (f0 & -> & Hf0)%list_elem_of_fmap. exists f0.
  split; [done|]. split; [by rewrite friend_key_accept_row|].
  intros Hne. unfold accept_row.
  destruct (friend_row_is (Some a) (Some b) f0) eqn:Hrow; [|done].
  by apply friend_row_is_key in Hrow.
Qed.

Lemma accept_row_hit (a b : string) (s : sqlval) (fs : list friendship) :
  Friendship (Some a) (Some b) s ∈ fs →
  Friendship (Some a) (Some b) (Some "accepted")
    ∈ accept_row (Some a) (Some b) <$> fs.
Proof.
  intros Hin. apply list_elem_of_fmap.
  exists (Friendship (Some a) (Some b) s). split; [|done].
  unfold accept_row. by rewrite (proj2 (friend_row_is_key a b _)).
Qed.

(** X14: when [b] accepts the request of [a] (a row from [a] to [b]
    exists, none from [b] to [a]), the answer is success and one
    [INSERT ... ON CONFLICT DO NOTHING] is issued.  After the first
    statement [a] already has [b] as a friend, while [b] does not have
    [a]; that comes only when the issued insert has run, and if that
    insert fails nothing records it. *)
Theorem accept_makes_friends (st : store) (a b : string) (s : sqlval)
    (ua ub : user) :
  friends_unique (friends st) →
  Friendship (Some a) (Some b) s ∈ friends st →
  (∀ f, f ∈ friends st → friend_key f ≠ Some (b, a)) →
  ua ∈ users st → u_username ua = Some a →
  ub ∈ users st → u_username ub = Some b →
  ∃ st1,
    put_friends_respond (JStr b) (JStr a) (JStr "accept") None st =
      (st1, Response 200 J_done, [INSERT_friend_accepted (Some b) (Some a)]) ∧
    (Some b, u_avatar_url ub) ∈ select_friends (Some a) st1 ∧
    (∀ x, x.1 = Some a → x ∉ select_friends (Some b) st1) ∧
    (∀ e, run_statement (INSERT_friend_accepted (Some b) (Some a)) (Some e) st1
          = st1) ∧
    (Some b, u_avatar_url ub)
      ∈ select_friends (Some a)
          (run_statement (INSERT_friend_accepted (Some b) (Some a)) None st1) ∧
    (Some a, u_avatar_url ua)
      ∈ select_friends (Some b)
          (run_statement (INSERT_friend_accepted (Some b) (Some a)) None st1).
Proof.
  intros Huniq Hreq Hnone Hua Hna Hub Hnb.
  unfold put_friends_respond. rewrite bool_decide_eq_true_2 by done.
  cbn [update_friend_accepted to_sql].
  eexists. split; [reflexivity|].
  assert (Hab : (Some b, u_avatar_url ub)
            ∈ select_friends (Some a)
                (Store (users st) (accept_row (Some a) (Some b) <$> friends st)
                   (msgs st))).
  { apply elem_of_select_friends.
    exists (Friendship (Some a) (Some b) (Some "accepted")), ub.
    split_and!; cbn; try done; [by eapply accept_row_hit | by rewrite Hnb..]. }
  assert (Hnone' : ∀ f, f ∈ accept_row (Some a) (Some b) <$> friends st →
                        friend_key f ≠ Some (b, a)).
  { intros f (f0 & Hf0 & Hkey & _)%elem_of_accept. rewrite <- Hkey.
    by apply Hnone. }
  split; [done|]. split.
  { intros x Hx (f & u & Hf & _ & Huser & _ & Hjoin & _ & ->)%elem_of_select_friends.
    cbn in Hx, Hf. apply (Hnone' f Hf). apply friend_key_Some.
    by rewrite Hjoin. }
  split.
  { intros e. cbn. by destruct st. }
  assert (Hins : run_statement (INSERT_friend_accepted (Some b) (Some a)) None
            (Store (users st) (accept_row (Some a) (Some b) <$> friends st)
               (msgs st)) =
          Store (users st)
            ((accept_row (Some a) (Some b) <$> friends st) ++
             [Friendship (Some b) (Some a) (Some "accepted")])
            (msgs st)).
  { cbn. rewrite decide_True; [done|]. apply friends_unique_snoc.
    split; [|done]. unfold friends_unique. by rewrite friend_keys_accept. }
  rewrite Hins. split.
  - apply elem_of_select_friends in Hab as (f & u & Hf & Hrest).
    apply elem_of_select_friends. exists f, u. split; [|done]. cbn in *.
    apply elem_of_app. by left.
  - apply elem_of_select_friends.
    exists (Friendship (Some b) (Some a) (Some "accepted")), ua.
    split_and!; cbn; try done; [|by rewrite Hna..].
    apply elem_of_app. right. apply list_elem_of_here.
Qed.

Lemma accept_makes_friends_witness :
  ∃ st1,
    put_friends_respond (JStr "bob") (JStr "alice") (JStr "accept") None
      (Store [User (Some "alice") None None; User (Some "bob") None None]
         [Friendship (Some "alice") (Some "bob") (Some "pending")]
         (Database [] 1)) =
      (st1, Response 200 J_done,
       [INSERT_friend_accepted (Some "bob") (Some "alice")]).
Proof.
  destruct (accept_makes_friends
    (Store [User (Some "alice") None None; User (Some "bob") None None]
       [Friendship (Some "alice") (Some "bob") (Some "pending")]
       (Database [] 1))
    "alice" "bob" (Some "pending")
    (User (Some "alice") None None) (User (Some "bob") None None))
    as (st1 & Hresp & _).
  - apply (bool_decide_unpack _). vm_compute. exact I.
  - apply list_elem_of_here.
  - intros f ->%list_elem_of_singleton. discriminate.
  - apply list_elem_of_here.
  - reflexivity.
  - apply list_elem_of_further, list_elem_of_here.
  - reflexivity.
  - exists st1. exact Hresp.
Defined.

(** X15: an accept needs no request.  When no row links [u] and [f] in
    either direction, [u] accepting [f] changes nothing at first, is
    answered success, and the issued insert then makes [f] a friend of [u]
    (if [f] is a registered user), while [u] is no friend of [f]. *)
Theorem accept_without_request (st : store) (u f : string) (uf : user) :
  u ≠ f →
  friends_unique (friends st) →
  (∀ r, r ∈ friends st → friend_key r ≠ Some (f, u)) →
  (∀ r, r ∈ friends st → friend_key r ≠ Some (u, f)) →
  uf ∈ users st → u_username uf = Some f →
  put_friends_respond (JStr u) (JStr f) (JStr "accept") None st =
    (st, Response 200 J_done, [INSERT_friend_accepted (Some u) (Some f)]) ∧
  friends (run_statement (INSERT_friend_accepted (Some u) (Some f)) None st) =
    (friends st ++ [Friendship (Some u) (Some f) (Some "accepted")])%list ∧
  (Some f, u_avatar_url uf)
    ∈ select_friends (Some u)
        (run_statement (INSERT_friend_accepted (Some u) (Some f)) None st) ∧
  (∀ x, x.1 = Some u →
     x ∉ select_friends (Some f)
           (run_statement (INSERT_friend_accepted (Some u) (Some f)) None st)).
Proof.
  intros Huf Huniq Hfu Hufr Huser Hname.
  assert (Hins : friends (run_statement (INSERT_friend_accepted (Some u) (Some f))
                            None st) =
                 (friends st ++ [Friendship (Some u) (Some f) (Some "accepted")])%list).
  { cbn. rewrite decide_True; [done|]. by apply friends_unique_snoc. }
  split_and!.
  - unfold put_friends_respond. rewrite bool_decide_eq_true_2 by done.
    cbn [update_friend_accepted to_sql].
    rewrite fmap_id_on; [by rewrite store_eta|].
    intros r Hr. unfold accept_row.
    destruct (friend_row_is (Some f) (Some u) r) eqn:Hrow; [|done].
    apply friend_row_is_key in Hrow. by destruct (Hfu r).
  - done.
  - apply elem_of_select_friends.
    exists (Friendship (Some u) (Some f) (Some "accepted")), uf.
    split_and!; cbn; try done; [|by rewrite Hname..].
    rewrite decide_True by (by apply friends_unique_snoc).
    apply elem_of_app. right. apply list_elem_of_here.
  - intros x Hx (r & u' & Hr & _ & Huser' & _ & Hjoin & _ & ->)%elem_of_select_friends.
    cbn [fst] in Hx. rewrite Hins in Hr.
    assert (Hkey : friend_key r = Some (f, u)).
    { apply friend_key_Some. by rewrite Hjoin. }
    apply elem_of_app in Hr as [Hr | ->%list_elem_of_singleton].
    + by apply (Hfu r).
    + cbn in Hkey. congruence.
Qed.

Lemma accept_without_request_witness :
  put_friends_respond (JStr "mallory") (JStr "alice") (JStr "accept") None
    (Store [User (Some "alice") None None] [] (Database [] 1)) =
  (Store [User (Some "alice") None None] [] (Database [] 1),
   Response 200 J_done,
   [INSERT_friend_accepted (Some "mallory") (Some "alice")]).
Proof.
  refine (proj1 (accept_without_request
    (Store [User (Some "alice") None None] [] (Database [] 1))
    "mallory" "alice" (User (Some "alice") None None) _ _ _ _ _ _)).
  - discriminate.
  - constructor.
  - intros r Hr. by apply elem_of_nil in Hr.
  - intros r Hr. by apply elem_of_nil in Hr.
  - apply list_elem_of_here.
  - reflexivity.
Defined.

(** X16: when two requests cross (a pending row from [a] to [b] and one
    from [b] to [a]) and [b] accepts [a], the row from [a] to [b] becomes
    accepted but the issued insert meets [b]'s own row and does nothing:
    that row stays pending, so [a] is still not in [b]'s list of
    friends. *)
Theorem crossing_requests_stay_one_sided (st : store) (a b : string) :
  a ≠ b →
  friends_unique (friends st) →
  Friendship (Some a) (Some b) (Some "pending") ∈ friends st →
  Friendship (Some b) (Some a) (Some "pending") ∈ friends st →
  ∃ st1,
    put_friends_respond (JStr b) (JStr a) (JStr "accept") None st =
      (st1, Response 200 J_done, [INSERT_friend_accepted (Some b) (Some a)]) ∧
    run_statement (INSERT_friend_accepted (Some b) (Some a)) None st1 = st1 ∧
    Friendship (Some a) (Some b) (Some "accepted") ∈ friends st1 ∧
    Friendship (Some b) (Some a) (Some "pending") ∈ friends st1 ∧
    (∀ x, x.1 = Some a → x ∉ select_friends (Some b) st1).
Proof.
  intros Hab Huniq Hab_row Hba_row.
  unfold put_friends_respond. rewrite bool_decide_eq_true_2 by done.
  cbn [update_friend_accepted to_sql].
  eexists. split; [reflexivity|].
  assert (Hba' : Friendship (Some b) (Some a) (Some "pending")
                   ∈ accept_row (Some a) (Some b) <$> friends st).
  { apply list_elem_of_fmap. eexists. split; [|exact Hba_row].
    unfold accept_row.
    destruct (friend_row_is (Some a) (Some b) _) eqn:Hrow; [|done].
    apply friend_row_is_key in Hrow. cbn in Hrow. congruence. }
  split_and!.
  - cbn. rewrite decide_False; [done|]. rewrite friends_unique_snoc.
    intros [_ Hfresh]. by apply (Hfresh _ Hba').
  - cbn. by eapply accept_row_hit.
  - done.
  - intros x Hx (r & u & Hr & _ & Huser & Hstatus & Hjoin & _ & ->)%elem_of_select_friends.
    cbn in Hx, Hr.
    assert (Hkey : friend_key r = Some (b, a)).
    { apply friend_key_Some. by rewrite Hjoin. }
    assert (r = Friendship (Some b) (Some a) (Some "pending")) as ->.
    { apply (friends_unique_same_key
               (accept_row (Some a) (Some b) <$> friends st) r _ (b, a));
        [unfold friends_unique; by rewrite friend_keys_accept
        | done | done | done | done]. }
    discriminate.
Qed.

Lemma crossing_requests_stay_one_sided_witness :
  ∃ st1,
    put_friends_respond (JStr "bob") (JStr "alice") (JStr "accept") None
      (Store [] [Friendship (Some "alice") (Some "bob") (Some "pending");
                 Friendship (Some "bob") (Some "alice") (Some "pending")]
         (Database [] 1)) =
      (st1, Response 200 J_done,
       [INSERT_friend_accepted (Some "bob") (Some "alice")]).
Proof.
  destruct (crossing_requests_stay_one_sided
    (Store [] [Friendship (Some "alice") (Some "bob") (Some "pending");
               Friendship (Some "bob") (Some "alice") (Some "pending")]
       (Database [] 1)) "alice" "bob")
    as (st1 & Hresp & _).
  - discriminate.
  - apply (bool_decide_unpack _). vm_compute. exact I.
  - apply list_elem_of_here.
  - apply list_elem_of_further, list_elem_of_here.
  - exists st1. exact Hresp.
Defined.

Lemma friends_unique_filter (P : friendship → Prop) `{∀ f, Decision (P f)}
    (fs : list friendship) :
  friends_unique fs → friends_unique (filter P fs).
Proof.
  unfold friends_unique. induction fs as [|f fs IH]; [done|].
  rewrite filter_cons. intros Hnd.
  assert (Htail : NoDup (omap friend_key fs)).
  { cbn in Hnd. destruct (friend_key f); [by apply NoDup_cons in Hnd as [_ ?] | done]. }
  destruct (decide (P f)); [|by apply IH].
  cbn in *. destruct (friend_key f) as [k|] eqn:Hk; [|by apply IH].
  apply NoDup_cons in Hnd as [Hnotin _]. apply NoDup_cons. split; [|by apply IH].
  intros (f' & [_ Hf']%list_elem_of_filter & Hk')%list_elem_of_omap.
  apply Hnotin, list_elem_of_omap. by exists f'.
Qed.

(** X17: any action other than ['accept'] (a missing one too) deletes
    the row from [f] to [u], whatever its status, keeps every other row,
    and is answered success with nothing further issued; the answer is
    success even when the delete failed and nothing changed.  After a
    delete that ran, [f] can send the request again. *)
Theorem respond_other_action_deletes (st : store) (u f : string)
    (action : jsval) (fault : option error) :
  action ≠ JStr "accept" →
  ∃ st1,
    put_friends_respond (JStr u) (JStr f) action fault st =
      (st1, Response 200 J_done, []) ∧
    users st1 = users st ∧ msgs st1 = msgs st ∧
    (∀ e, fault = Some e → st1 = st) ∧
    (fault = None →
     (∀ r, r ∈ friends st1 ↔ r ∈ friends st ∧ friend_key r ≠ Some (f, u)) ∧
     (f ≠ u → friends_unique (friends st) →
      ∃ st2, post_friends (JStr f) (JStr u) None st1 =
               (st2, Response 200 (J_result true "Запрос отправлен")))).
Proof.
  intros Haction. unfold put_friends_respond.
  rewrite bool_decide_eq_false_2 by done. cbn [to_sql].
  destruct fault as [e|]; cbn [delete_friend].
  { exists st. rewrite store_eta. split_and!; try done. }
  eexists. split; [reflexivity|]. cbn [users msgs friends].
  split; [done|]. split; [done|]. split; [done|]. intros _.
  assert (Hmem : ∀ r, r ∈ filter (λ r, friend_row_is (Some f) (Some u) r = false)
                        (friends st) ↔
                      r ∈ friends st ∧ friend_key r ≠ Some (f, u)).
  { intros r. rewrite list_elem_of_filter, <- friend_row_is_key.
    destruct (friend_row_is (Some f) (Some u) r); naive_solver. }
  split; [done|]. intros Hfu Huniq.
  unfold post_friends. rewrite bool_decide_eq_false_2 by congruence.
  unfold insert_friend, checked. cbn [to_sql friends users msgs].
  rewrite decide_True; [by eexists|].
  apply friends_unique_snoc. split; [by apply friends_unique_filter|].
  intros r Hr. by apply Hmem in Hr as [_ ?].
Qed.

Lemma respond_other_action_deletes_witness :
  ∃ st1,
    put_friends_respond (JStr "bob") (JStr "alice") JUndefined (Some "timeout")
      (Store [] [Friendship (Some "alice") (Some "bob") (Some "accepted")]
         (Database [] 1)) =
      (st1, Response 200 J_done, []).
Proof.
  destruct (respond_other_action_deletes
    (Store [] [Friendship (Some "alice") (Some "bob") (Some "accepted")]
       (Database [] 1)) "bob" "alice" JUndefined (Some "timeout"))
    as (st1 & Hresp & _).
  - discriminate.
  - exists st1. exact Hresp.
Defined.

(** ** Profile updates *)

Lemma users_split (us : list user) (uc : user) (cur : string) :
  users_unique us → uc ∈ us → u_username uc = Some cur →
  ∃ l1 l2, us = (l1 ++ uc :: l2)%list ∧
    ∀ u, u ∈ (l1 ++ l2)%list → u_username u ≠ Some cur.
Proof.
  intros Huniq Huc Hname.
  destruct (list_elem_of_split _ _ Huc) as (l1 & l2 & ->).
  exists l1, l2. split; [done|].
  unfold users_unique in Huniq. rewrite omap_app in Huniq. cbn in Huniq.
  rewrite Hname in Huniq.
  apply NoDup_app in Huniq as (_ & Hdisj & [Hnotin _]%NoDup_cons).
  intros u [Hu|Hu]%elem_of_app Hu_name.
  - apply (Hdisj cur); [|by left]. apply elem_of_usernames. by exists u.
  - apply Hnotin, elem_of_usernames. by exists u.
Qed.

Lemma profile_row_other (n av : sqlval) (cur : string) (u : user) :
  u_username u ≠ Some cur → profile_row n av (Some cur) u = u.
Proof.
  intros Hne. unfold profile_row.
  by rewrite (proj2 (is_true_sql_eq_false _ _) Hne).
Qed.

Lemma profile_rows_split (n av : sqlval) (cur : string) (l1 l2 : list user)
    (uc : user) :
  u_username uc = Some cur →
  (∀ u, u ∈ (l1 ++ l2)%list → u_username u ≠ Some cur) →
  profile_row n av (Some cur) <$> (l1 ++ uc :: l2)%list =
  (l1 ++ User n (u_password uc) av :: l2)%list.
Proof.
  intros Hname Hother. rewrite fmap_app, fmap_cons.
  rewrite !fmap_id_on.
  - unfold profile_row at 1.
    by rewrite (proj2 (is_true_sql_eq _ _) Hname).
  - intros u Hu. apply profile_row_other, Hother, elem_of_app. by right.
  - intros u Hu. apply profile_row_other, Hother, elem_of_app. by left.
Qed.

Lemma profile_rows_absent (n av : sqlval) (cur : string) (us : list user) :
  (∀ u, u ∈ us → u_username u ≠ Some cur) →
  profile_row n av (Some cur) <$> us = us.
Proof.
  intros Hother. apply fmap_id_on. intros u Hu.
  by apply profile_row_other, Hother.
Qed.

Lemma users_unique_replace (l1 l2 : list user) (uc : user) (cur new : string)
    (pw av : sqlval) :
  u_username uc = Some cur →
  users_unique (l1 ++ uc :: l2) →
  new = cur ∨ (∀ u, u ∈ (l1 ++ l2)%list → u_username u ≠ Some new) →
  users_unique (l1 ++ User (Some new) pw av :: l2).
Proof.
  unfold users_unique. intros Hname. rewrite !omap_app. cbn. rewrite Hname.
  rewrite !NoDup_app, !NoDup_cons.
  intros (Hn1 & Hdisj & Hnotin & Hn2) [-> | Hfresh]; [done|].
  split; [done|]. split.
  - intros x Hx [-> | Hx2]%elem_of_cons.
    + apply elem_of_usernames in Hx as (u & Hu & Hu_name).
      apply (Hfresh u); [apply elem_of_app; by left | done].
    + apply (Hdisj x Hx). by right.
  - split; [|done].
    intros (u & Hu & Hu_name)%elem_of_usernames.
    apply (Hfresh u); [apply elem_of_app; by right | done].
Qed.

Lemma select_user_split (l1 l2 : list user) (name : string) (pw av : sqlval) :
  (∀ u, u ∈ (l1 ++ l2)%list → u_username u ≠ Some name) →
  select_user (Some name) (l1 ++ User (Some name) pw av :: l2) =
  [User (Some name) pw av].
Proof.
  intros Hfresh. unfold select_user. rewrite filter_app, filter_cons_True
    by (by apply is_true_sql_eq).
  fold (select_user (Some name) l1). fold (select_user (Some name) l2).
  rewrite !select_user_fresh; [done | |];
    intros u Hu; apply Hfresh, elem_of_app; auto.
Qed.

(** X18: renaming an existing account to a free, non-empty name is
    answered success and issues the four cascade statements from the old
    name to the new one.  From then on the account is found under the new
    name only, with the password it had and with the avatar of the
    request: a request without [newAvatar] leaves the account without
    avatar. *)
Theorem profile_rename (st : store) (cur new : string) (avatar : jsval)
    (uc : user) :
  users_unique (users st) →
  uc ∈ users st → u_username uc = Some cur →
  new ≠ "" → new ≠ cur →
  (∀ u, u ∈ users st → u_username u ≠ Some new) →
  ∃ st1,
    put_user_profile (JStr cur) (JStr new) avatar None st =
      (st1, Response 200 (J_profile (JStr new) avatar),
       [UPDATE_messages_sender (Some new) (Some cur);
        UPDATE_messages_receiver (Some new) (Some cur);
        UPDATE_friends_user (Some new) (Some cur);
        UPDATE_friends_friend (Some new) (Some cur)]) ∧
    friends st1 = friends st ∧ msgs st1 = msgs st ∧
    users_unique (users st1) ∧
    get_user new None st1 = Response 200 (J_user (Some new) (to_sql avatar)) ∧
    get_user cur None st1 = Response 404 (J_error "Not found") ∧
    (∀ compare pw, compare pw (u_password uc) = Some true →
       login compare (JStr new) pw None st1 =
         Some (Response 200 (J_logged_in (Some new) (to_sql avatar)))).
Proof.
  intros Huniq Huc Hname Hnew Hne Hfree.
  destruct (users_split _ _ _ Huniq Huc Hname) as (l1 & l2 & Hus & Hother).
  assert (Hfree' : ∀ u, u ∈ (l1 ++ l2)%list → u_username u ≠ Some new).
  { intros u Hu. apply Hfree. rewrite Hus.
    apply elem_of_app in Hu as [?|?]; apply elem_of_app; [by left|].
    right. by right. }
  assert (Huniq' : users_unique (l1 ++ User (Some new) (u_password uc)
                                         (to_sql avatar) :: l2)).
  { eapply users_unique_replace; [exact Hname | by rewrite <- Hus | by right]. }
  unfold put_user_profile, js_or. rewrite truthy_JStr by done.
  unfold update_user, checked. cbn [to_sql].
  rewrite Hus, profile_rows_split by done.
  rewrite decide_True by done.
  rewrite bool_decide_eq_true_2 by congruence.
  eexists. split; [reflexivity|]. cbn [users friends msgs].
  split; [done|]. split; [done|]. split; [done|].
  unfold get_user, login, db_get. cbn [users to_sql].
  rewrite select_user_split by done. cbn [head u_username u_avatar_url u_password].
  split; [done|]. split.
  - rewrite select_user_fresh; [done|].
    intros u [Hu | [-> | Hu]%elem_of_cons]%elem_of_app.
    + apply Hother, elem_of_app. by left.
    + cbn. congruence.
    + apply Hother, elem_of_app. by right.
  - intros compare pw Hcmp. by rewrite Hcmp.
Qed.

Lemma profile_rename_witness :
  ∃ st1,
    put_user_profile (JStr "alice") (JStr "alicia") JUndefined None
      (Store [User (Some "alice") (Some "$2a$secret") (Some default_avatar)] []
         (Database [] 1)) =
      (st1, Response 200 (J_profile (JStr "alicia") JUndefined),
       [UPDATE_messages_sender (Some "alicia") (Some "alice");
        UPDATE_messages_receiver (Some "alicia") (Some "alice");
        UPDATE_friends_user (Some "alicia") (Some "alice");
        UPDATE_friends_friend (Some "alicia") (Some "alice")]) ∧
    get_user "alicia" None st1 = Response 200 (J_user (Some "alicia") None).
Proof.
  destruct (profile_rename
    (Store [User (Some "alice") (Some "$2a$secret") (Some default_avatar)] []
       (Database [] 1)) "alice" "alicia" JUndefined
    (User (Some "alice") (Some "$2a$secret") (Some default_avatar)))
    as (st1 & Hresp & _ & _ & _ & Hget & _).
  - apply (bool_decide_unpack _). vm_compute. exact I.
  - apply list_elem_of_here.
  - reflexivity.
  - discriminate.
  - discriminate.
  - intros u ->%list_elem_of_singleton. discriminate.
  - exists st1. split; [exact Hresp | exact Hget].
Defined.

(** X19: a profile update without new name (absent, null or empty)
    keeps the name: the account's avatar is replaced by the request's, and
    no cascade is issued. *)
Theorem profile_without_new_name (st : store) (cur : string)
    (newUsername avatar : jsval) (uc : user) :
  truthy newUsername = false →
  users_unique (users st) →
  uc ∈ users st → u_username uc = Some cur →
  ∃ st1,
    put_user_profile (JStr cur) newUsername avatar None st =
      (st1, Response 200 (J_profile (JStr cur) avatar), []) ∧
    friends st1 = friends st ∧ msgs st1 = msgs st ∧
    get_user cur None st1 = Response 200 (J_user (Some cur) (to_sql avatar)).
Proof.
  intros Hfalsy Huniq Huc Hname.
  destruct (users_split _ _ _ Huniq Huc Hname) as (l1 & l2 & Hus & Hother).
  unfold put_user_profile, js_or. rewrite Hfalsy.
  unfold update_user, checked. cbn [to_sql].
  rewrite Hus, profile_rows_split by done.
  rewrite decide_True
    by (eapply users_unique_replace; [exact Hname | by rewrite <- Hus | by left]).
  rewrite bool_decide_eq_false_2 by (by intros []).
  eexists. split; [reflexivity|]. cbn [users friends msgs].
  split; [done|]. split; [done|].
  unfold get_user, db_get. cbn [users].
  by rewrite select_user_split.
Qed.

Lemma profile_without_new_name_witness :
  ∃ st1,
    put_user_profile (JStr "alice") JUndefined (JStr "a.png") None
      (Store [User (Some "alice") (Some "$2a$secret") (Some default_avatar)] []
         (Database [] 1)) =
      (st1, Response 200 (J_profile (JStr "alice") (JStr "a.png")), []).
Proof.
  destruct (profile_without_new_name
    (Store [User (Some "alice") (Some "$2a$secret") (Some default_avatar)] []
       (Database [] 1)) "alice" JUndefined (JStr "a.png")
    (User (Some "alice") (Some "$2a$secret") (Some default_avatar)))
    as (st1 & Hresp & _).
  - reflexivity.
  - apply (bool_decide_unpack _). vm_compute. exact I.
  - apply list_elem_of_here.
  - reflexivity.
  - exists st1. exact Hresp.
Defined.

(** X20: renaming an account to a name that another account has is
    answered 400, changes nothing and issues no cascade. *)
Theorem profile_name_taken (st : store) (cur new : string) (avatar : jsval)
    (uc uo : user) (fault : option error) :
  users_unique (users st) →
  uc ∈ users st → u_username uc = Some cur →
  uo ∈ users st → u_username uo = Some new →
  new ≠ "" → new ≠ cur →
  put_user_profile (JStr cur) (JStr new) avatar fault st =
    (st, Response 400 (J_error "Этот ник занят или ошибка обновления"), []).
Proof.
  intros Huniq Huc Hname Huo Hname_o Hnew Hne.
  unfold put_user_profile, js_or. rewrite truthy_JStr by done.
  unfold update_user, checked. cbn [to_sql].
  destruct fault as [e|]; [by rewrite store_eta|].
  rewrite decide_False; [by rewrite store_eta|].
  destruct (users_split _ _ _ Huniq Huc Hname) as (l1 & l2 & Hus & Hother).
  rewrite Hus, profile_rows_split by done.
  unfold users_unique. rewrite omap_app. cbn.
  rewrite NoDup_app, NoDup_cons. intros (_ & Hdisj & Hnotin & _).
  rewrite Hus in Huo.
  apply elem_of_app in Huo as [Huo | [-> | Huo]%elem_of_cons].
  - apply (Hdisj new); [|by left]. apply elem_of_usernames. by exists uo.
  - congruence.
  - apply Hnotin, elem_of_usernames. by exists uo.
Qed.

Lemma profile_name_taken_witness :
  put_user_profile (JStr "alice") (JStr "bob") JUndefined None
    (Store [User (Some "alice") None None; User (Some "bob") None None] []
       (Database [] 1)) =
  (Store [User (Some "alice") None None; User (Some "bob") None None] []
     (Database [] 1),
   Response 400 (J_error "Этот ник занят или ошибка обновления"), []).
Proof.
  apply (profile_name_taken
    (Store [User (Some "alice") None None; User (Some "bob") None None] []
       (Database [] 1)) "alice" "bob" JUndefined
    (User (Some "alice") None None) (User (Some "bob") None None) None).
  - apply (bool_decide_unpack _). vm_compute. exact I.
  - apply list_elem_of_here.
  - reflexivity.
  - apply list_elem_of_further, list_elem_of_here.
  - reflexivity.
  - discriminate.
  - discriminate.
Defined.

(** X21: a profile update for a name that no account has is answered
    success all the same: no account changes, and the cascade from that
    name to the new one is still issued. *)
Theorem profile_unknown_user (st : store) (cur new : string) (avatar : jsval) :
  users_unique (users st) →
  (∀ u, u ∈ users st → u_username u ≠ Some cur) →
  new ≠ "" → new ≠ cur →
  put_user_profile (JStr cur) (JStr new) avatar None st =
    (st, Response 200 (J_profile (JStr new) avatar),
     [UPDATE_messages_sender (Some new) (Some cur);
      UPDATE_messages_receiver (Some new) (Some cur);
      UPDATE_friends_user (Some new) (Some cur);
      UPDATE_friends_friend (Some new) (Some cur)]).
Proof.
  intros Huniq Habsent Hnew Hne.
  unfold put_user_profile, js_or. rewrite truthy_JStr by done.
  unfold update_user, checked. cbn [to_sql].
  rewrite profile_rows_absent by done.
  rewrite decide_True by done.
  rewrite bool_decide_eq_true_2 by congruence.
  by rewrite store_eta.
Qed.

Lemma profile_unknown_user_witness :
  put_user_profile (JStr "ghost") (JStr "mallory") JUndefined None
    (Store [User (Some "alice") None None] [] (Database [] 1)) =
  (Store [User (Some "alice") None None] [] (Database [] 1),
   Response 200 (J_profile (JStr "mallory") JUndefined),
   [UPDATE_messages_sender (Some "mallory") (Some "ghost");
    UPDATE_messages_receiver (Some "mallory") (Some "ghost");
    UPDATE_friends_user (Some "mallory") (Some "ghost");
    UPDATE_friends_friend (Some "mallory") (Some "ghost")]).
Proof.
  apply (profile_unknown_user
    (Store [User (Some "alice") None None] [] (Database [] 1))
    "ghost" "mallory" JUndefined).
  - apply (bool_decide_unpack _). vm_compute. exact I.
  - intros u ->%list_elem_of_singleton. discriminate.
  - discriminate.
  - discriminate.
Defined.

(** ** The rename cascade on the messages *)

Lemma names_mapped_id (r : row) : names_mapped Datatypes.id Datatypes.id r = r.
Proof. by destruct r. Qed.

Lemma names_mapped_compose (f1 g1 f2 g2 : sqlval → sqlval) (r : row) :
  names_mapped f1 g1 (names_mapped f2 g2 r) = names_mapped (f1 ∘ f2) (g1 ∘ g2) r.
Proof. done. Qed.

Lemma names_mapped_ext (f1 g1 f2 g2 : sqlval → sqlval) (r : row) :
  (∀ v, f1 v = f2 v) → (∀ v, g1 v = g2 v) →
  names_mapped f1 g1 r = names_mapped f2 g2 r.
Proof. intros Hf Hg. unfold names_mapped. by rewrite Hf, Hg. Qed.

Lemma rename_sender_mapped (new old : sqlval) (r : row) :
  rename_sender new old r = names_mapped (rename_name new old) Datatypes.id r.
Proof.
  unfold rename_sender, names_mapped, rename_name.
  destruct (is_true (sql_eq (sender_username r) old)); by destruct r.
Qed.

Lemma rename_receiver_mapped (new old : sqlval) (r : row) :
  rename_receiver new old r = names_mapped Datatypes.id (rename_name new old) r.
Proof.
  unfold rename_receiver, names_mapped, rename_name.
  destruct (is_true (sql_eq (receiver_username r) old)); by destruct r.
Qed.

Lemma rename_name_idemp (new old v : sqlval) :
  rename_name new old (rename_name new old v) = rename_name new old v.
Proof.
  unfold rename_name.
  destruct (is_true (sql_eq v old)) eqn:Hv; [|by rewrite Hv].
  by destruct (is_true (sql_eq new old)).
Qed.

Lemma database_eta (d : database) :
  Database (messages d) (messages_id_seq d) = d.
Proof. by destruct d. Qed.

(** One statement of a cascade, seen from the messages. *)
Lemma run_statement_msgs (new old : sqlval) (s : statement)
    (fault : option error) (st : store) :
  s ∈ cascade new old →
  msgs (run_statement s fault st) =
  Database
    (names_mapped
       (if is_sender_update s && bool_decide (fault = None)
        then rename_name new old else Datatypes.id)
       (if is_receiver_update s && bool_decide (fault = None)
        then rename_name new old else Datatypes.id)
     <$> messages (msgs st))
    (messages_id_seq (msgs st)).
Proof.
  unfold cascade. rewrite !elem_of_cons, elem_of_nil.
  intros [-> | [-> | [-> | [-> | []]]]]; destruct fault as [e|]; cbn;
    rewrite ?(list_fmap_ext _ Datatypes.id) by (intros; apply names_mapped_id);
    rewrite ?list_fmap_id, ?database_eta; try done.
  - f_equal. apply list_fmap_ext. intros _ r _. apply rename_sender_mapped.
  - f_equal. apply list_fmap_ext. intros _ r _. apply rename_receiver_mapped.
Qed.

Lemma run_statements_msgs (new old : sqlval)
    (sched : list (statement * option error)) (st : store) :
  (∀ sf, sf ∈ sched → sf.1 ∈ cascade new old) →
  msgs (run_statements st sched) =
  Database
    (names_mapped
       (if has_run is_sender_update sched then rename_name new old else Datatypes.id)
       (if has_run is_receiver_update sched then rename_name new old else Datatypes.id)
     <$> messages (msgs st))
    (messages_id_seq (msgs st)).
Proof.
  revert st. induction sched as [|[s fault] sched IH]; intros st Hin.
  { cbn. rewrite (list_fmap_ext _ Datatypes.id) by (intros; apply names_mapped_id).
    by rewrite list_fmap_id, database_eta. }
  unfold run_statements. cbn [foldl fst snd].
  fold (run_statements (run_statement s fault st) sched).
  rewrite IH by (intros sf Hsf; apply Hin; by right).
  rewrite (run_statement_msgs new old) by (apply (Hin (s, fault)); by left).
  cbn [messages messages_id_seq]. f_equal.
  rewrite <- list_fmap_compose. apply list_fmap_ext. intros _ r _.
  unfold compose. rewrite names_mapped_compose. unfold has_run. cbn [existsb fst snd].
  apply names_mapped_ext; intros v; unfold compose.
  - destruct (is_sender_update s && bool_decide (fault = None)),
      (existsb _ sched); cbn; try done. apply rename_name_idemp.
  - destruct (is_receiver_update s && bool_decide (fault = None)),
      (existsb (λ sf, is_receiver_update sf.1 && _) sched); cbn; try done.
    apply rename_name_idemp.
Qed.

Lemma has_run_intro (kind : statement → bool) (s : statement)
    (sched : list (statement * option error)) :
  kind s = true → (s, None) ∈ sched → has_run kind sched = true.
Proof.
  intros Hkind Hin. unfold has_run. apply existsb_exists.
  exists (s, None). split; [by apply list_elem_of_In|]. cbn. by rewrite Hkind.
Qed.

(** X22: when the four statements of a rename cascade have all been
    answered, in whatever order the pool ran them, and the two on
    [messages] did not fail, every message has its sender and its receiver
    renamed from the old name to the new one and nothing else changed in
    the table; what became of the two statements on [friends] does not
    matter for it. *)
Theorem cascade_renames_messages_in_any_order (st : store) (new old : sqlval)
    (sched : list (statement * option error)) :
  sched.*1 ≡ₚ cascade new old →
  (∀ s e, (s, Some e) ∈ sched →
     s = UPDATE_friends_user new old ∨ s = UPDATE_friends_friend new old) →
  msgs (run_statements st sched) =
  Database (rename_message new old <$> messages (msgs st))
    (messages_id_seq (msgs st)).
Proof.
  intros Hperm Hfaults.
  assert (Hin : ∀ sf, sf ∈ sched → sf.1 ∈ cascade new old).
  { intros sf Hsf. rewrite <- Hperm. apply list_elem_of_fmap. by exists sf. }
  assert (Hnone : ∀ s, s ∈ cascade new old →
            s ≠ UPDATE_friends_user new old →
            s ≠ UPDATE_friends_friend new old → (s, None) ∈ sched).
  { intros s Hs Hu Hf. rewrite <- Hperm in Hs.
    apply list_elem_of_fmap in Hs as ([s' [e|]] & -> & Hs'); [|done].
    destruct (Hfaults _ _ Hs'); done. }
  rewrite (run_statements_msgs new old) by done.
  rewrite (has_run_intro is_sender_update (UPDATE_messages_sender new old)),
    (has_run_intro is_receiver_update (UPDATE_messages_receiver new old));
    [done | done | | done |];
    (apply Hnone; [unfold cascade; set_solver | done | done]).
Qed.

Lemma cascade_renames_messages_in_any_order_witness :
  msgs (run_statements
          (Store [] [] (Database [Row 1 (Some "hi") (Some "alice") (Some "bob")
                                    (Some "09:05") (Some "text") None] 2))
          [(UPDATE_friends_friend (Some "alicia") (Some "alice"), Some "timeout");
           (UPDATE_messages_receiver (Some "alicia") (Some "alice"), None);
           (UPDATE_friends_user (Some "alicia") (Some "alice"), None);
           (UPDATE_messages_sender (Some "alicia") (Some "alice"), None)]) =
  Database (rename_message (Some "alicia") (Some "alice") <$>
              [Row 1 (Some "hi") (Some "alice") (Some "bob") (Some "09:05")
                 (Some "text") None]) 2.
Proof.
  apply (cascade_renames_messages_in_any_order
    (Store [] [] (Database [Row 1 (Some "hi") (Some "alice") (Some "bob")
                              (Some "09:05") (Some "text") None] 2))
    (Some "alicia") (Some "alice")).
  - apply (bool_decide_unpack _). vm_compute. exact I.
  - intros s e. rewrite !elem_of_cons, elem_of_nil.
    intros [[= -> _] | [[=] | [[=] | [[=] | []]]]]. by right.
Defined.

(** ** The history after a rename *)

Lemma select_where_in_table_order (cond : row → tri) (tbl : list row) :
  StronglySorted id_lt tbl →
  select_where cond tbl = filter (λ r, is_true (cond r) = true) tbl.
Proof.
  intros Hs. apply (StronglySorted_unique_strong id_le).
  - intros r1 r2 Hr1 Hr2 H12 H21.
    apply elem_of_select_where in Hr1 as [_ Hr1].
    apply list_elem_of_filter in Hr2 as [_ Hr2].
    apply (StronglySorted_same_id _ r1 r2 Hs Hr1 Hr2).
    unfold id_le in *. lia.
  - unfold select_where, order_by_id. apply (StronglySorted_merge_sort id_le).
  - by apply StronglySorted_filter_id.
  - apply select_where_perm.
Qed.

Lemma StronglySorted_fmap_same_id (g : row → row) (tbl : list row) :
  (∀ r, id (g r) = id r) →
  StronglySorted id_lt tbl → StronglySorted id_lt (g <$> tbl).
Proof.
  intros Hg. induction 1 as [|r l Hl IH Hr]; [constructor|].
  cbn. constructor; [done|]. rewrite Forall_fmap.
  eapply Forall_impl; [exact Hr|]. intros r'. unfold id_lt. cbn.
  by rewrite !Hg.
Qed.

Lemma filter_fmap_on {A} (P Q : A → Prop) `{∀ x, Decision (P x)}
    `{∀ x, Decision (Q x)} (g : A → A) (l : list A) :
  (∀ x, x ∈ l → P (g x) ↔ Q x) →
  filter P (g <$> l) = g <$> filter Q l.
Proof.
  induction l as [|x l IH]; [done|]. intros HPQ.
  rewrite fmap_cons, !filter_cons.
  assert (Htl : filter P (g <$> l) = g <$> filter Q l).
  { apply IH. intros y Hy. apply HPQ. by right. }
  pose proof (HPQ x (list_elem_of_here _ _)) as Hx.
  destruct (decide (P (g x))), (decide (Q x)); rewrite Htl; naive_solver.
Qed.

Lemma rename_name_hit (new old : string) :
  rename_name (Some new) (Some old) (Some old) = Some new.
Proof.
  unfold rename_name. by rewrite (proj2 (is_true_sql_eq _ _)).
Qed.

Lemma rename_name_miss (new old : string) (v : sqlval) :
  v ≠ Some old → rename_name (Some new) (Some old) v = v.
Proof.
  intros Hv. unfold rename_name.
  by rewrite (proj2 (is_true_sql_eq_false _ _) Hv).
Qed.

Lemma between_rename_message (new old b : string) (r : row) :
  new ≠ old → b ≠ old → b ≠ new →
  sender_username r ≠ Some new → receiver_username r ≠ Some new →
  between new b (rename_message (Some new) (Some old) r) ↔ between old b r.
Proof.
  intros Hno Hbo Hbn Hs Hr. unfold between, rename_message, names_mapped. cbn.
  destruct (decide (sender_username r = Some old)) as [Hso|Hso],
           (decide (receiver_username r = Some old)) as [Hro|Hro];
    rewrite ?Hso, ?Hro, ?rename_name_hit, ?rename_name_miss by done;
    naive_solver.
Qed.

Lemma no_old_name_after_rename (new old b : string) (r : row) :
  new ≠ old → b ≠ old →
  ¬ between old b (rename_message (Some new) (Some old) r).
Proof.
  intros Hno Hbo. unfold between, rename_message, names_mapped. cbn.
  destruct (decide (sender_username r = Some old)) as [Hso|Hso],
           (decide (receiver_username r = Some old)) as [Hro|Hro];
    rewrite ?Hso, ?Hro, ?rename_name_hit, ?rename_name_miss by done;
    naive_solver.
Qed.

(** X23: the history follows a rename.  Once the cascade has renamed the
    messages from [old] to a name [new] that no message mentioned, the
    direct history between [new] and a third name [b] is the former
    history between [old] and [b], row for row and in the same order, with
    the name replaced; and the history between [old] and [b] is empty. *)
Theorem history_follows_rename (d : database) (new old b : string)
    (type : jsval) :
  StronglySorted id_lt (messages d) →
  type ≠ JStr "global" →
  new ≠ old → b ≠ old → b ≠ new →
  (∀ r, r ∈ messages d →
     sender_username r ≠ Some new ∧ receiver_username r ≠ Some new) →
  history_rows type (JStr b) (JStr new)
    (Database (rename_message (Some new) (Some old) <$> messages d)
       (messages_id_seq d)) =
  (λ o, match o with
        | MessageRow r => MessageRow (rename_message (Some new) (Some old) r)
        | IdRow i => IdRow i
        end) <$> history_rows type (JStr b) (JStr old) d ∧
  history_rows type (JStr b) (JStr old)
    (Database (rename_message (Some new) (Some old) <$> messages d)
       (messages_id_seq d)) = [].
Proof.
  intros Hs Htype Hno Hbo Hbn Hfresh.
  assert (Hs' : StronglySorted id_lt
                  (rename_message (Some new) (Some old) <$> messages d)).
  { by apply StronglySorted_fmap_same_id. }
  unfold history_rows, getMessages_query.
  rewrite bool_decide_eq_false_2 by done. cbn [fst snd pool_query db_all_rows rows messages].
  rewrite !select_where_in_table_order by done.
  split.
  - rewrite <- list_fmap_compose.
    rewrite (list_filter_iff _ (between new b)) by apply where_direct_between.
    rewrite (list_filter_iff (λ r, is_true (where_direct _ r) = true)
               (between old b)) by apply where_direct_between.
    rewrite (filter_fmap_on (between new b) (between old b)).
    + by rewrite <- list_fmap_compose.
    + intros r Hr. destruct (Hfresh r Hr). by apply between_rename_message.
  - rewrite (list_filter_iff _ (between old b)) by apply where_direct_between.
    rewrite (filter_fmap_on (between old b) (λ _, False)).
    + rewrite filter_none; [done | by intros ? ?].
    + intros r _. split; [by apply no_old_name_after_rename | done].
Qed.

Lemma history_follows_rename_witness :
  history_rows (JStr "private") (JStr "bob") (JStr "alicia")
    (Database (rename_message (Some "alicia") (Some "alice") <$>
                 [Row 1 (Some "hi") (Some "alice") (Some "bob") (Some "09:05")
                    (Some "text") None]) 2) =
  [MessageRow (Row 1 (Some "hi") (Some "alicia") (Some "bob") (Some "09:05")
                 (Some "text") None)].
Proof.
  refine (eq_trans (proj1 (history_follows_rename
    (Database [Row 1 (Some "hi") (Some "alice") (Some "bob") (Some "09:05")
                 (Some "text") None] 2)
    "alicia" "alice" "bob" (JStr "private") _ _ _ _ _ _)) _).
  - repeat constructor.
  - discriminate.
  - discriminate.
  - discriminate.
  - discriminate.
  - intros r ->%list_elem_of_singleton. split; discriminate.
  - vm_compute. reflexivity.
Defined.

(** ** What the HTTP routes leave alone *)

Lemma message_content_names_mapped (f g : sqlval → sqlval) (r : row) :
  message_content (names_mapped f g r) = message_content r.
Proof. done. Qed.

Lemma run_statement_content (s : statement) (fault : option error) (st : store) :
  message_content <$> messages (msgs (run_statement s fault st)) =
    message_content <$> messages (msgs st) ∧
  messages_id_seq (msgs (run_statement s fault st)) = messages_id_seq (msgs st).
Proof.
  destruct s, fault; cbn; try done;
    (split; [|done]); rewrite <- list_fmap_compose; apply list_fmap_ext;
    intros _ r _; unfold compose;
    by rewrite ?rename_sender_mapped, ?rename_receiver_mapped.
Qed.

Lemma http_step_msgs (h : http) (r : request) :
  (∀ k fault, r ≠ Run_pending k fault) →
  msgs (http_store (http_step h r).1) = msgs (http_store h).
Proof.
  intros Hr. destruct r as [u p hp f|u fr f|u fr a f|c n av f|k f]; cbn.
  - unfold register. destruct (_ || _); [done|].
    by destruct (insert_user _ _ _ _) as [us [e|]].
  - unfold post_friends. case_bool_decide; [done|].
    by destruct (insert_friend _ _ _ _ _) as [fs [e|]].
  - unfold put_friends_respond. case_bool_decide.
    + by destruct (update_friend_accepted _ _ _ _) as [fs [e|]].
    + by destruct (delete_friend _ _ _ _) as [fs ?].
  - unfold put_user_profile.
    by destruct (update_user _ _ _ _ _) as [us [e|]].
  - by destruct (Hr k f).
Qed.

(** X24: no HTTP route and no statement it issues ever inserts, deletes
    or reorders a message or changes a message's id, text, timestamp, type
    or file_url, nor the id sequence: only the two username columns can
    change. *)
Theorem http_keeps_message_content (h : http) (rs : list request) :
  message_content <$> messages (msgs (http_store (http_run h rs))) =
    message_content <$> messages (msgs (http_store h)) ∧
  messages_id_seq (msgs (http_store (http_run h rs))) =
    messages_id_seq (msgs (http_store h)).
Proof.
  revert h. induction rs as [|r rs IH]; intros h; [done|].
  cbn [http_run]. destruct (IH (http_step h r).1) as [-> ->].
  destruct r as [u p hp f|u fr f|u fr a f|c n av f|k f];
    try (by rewrite http_step_msgs).
  cbn. destruct (http_pending h !! k); [|done]. cbn.
  apply run_statement_content.
Qed.

(** ** Delivered, hence stored and in the history *)

Lemma http_run_content (h : http) (rs : list request) :
  message_content <$> messages (msgs (http_store (http_run h rs))) =
  message_content <$> messages (msgs (http_store h)).
Proof.
  revert h. induction rs as [|r rs IH]; intros h; [done|].
  cbn [http_run]. rewrite IH.
  destruct r as [u p hp f|u fr f|u fr a f|c n av f|k f];
    try (by rewrite http_step_msgs).
  cbn. destruct (http_pending h !! k); [|done]. cbn.
  apply run_statement_content.
Qed.

(** X9: in every run of the server, a message that has been delivered to
    some connection stays stored.  As long as only socket events follow
    (so that no rename cascade has rewritten its names) it is found by
    every later history request of its scope: a message without (truthy)
    receiver by every global request, a message from the string [a] to the
    non-empty string [b] by every direct request between [a] and [b], in
    either order, as a row with the id the packet carried.  And whatever
    HTTP requests and issued statements run on the table after that, a row
    with that id and the same text, timestamp, type and file_url is still
    in it. *)
Theorem delivered_message_in_history (evs evs' : list event) (e : event)
    (c : sid) (ev : string) (m : message) :
  Packet c ev (NewMessage m) ∈ (step (run init evs).1 e).2 →
  ∃ r, msg_id m = Some (id r) ∧
    r ∈ messages (db (run (run init evs).1 evs').1) ∧
    (truthy (msg_receiver_username m) = false →
     ∀ mate me,
       MessageRow r ∈
         history_rows (JStr "global") mate me (db (run (run init evs).1 evs').1)) ∧
    (∀ (a b : string) (type : jsval),
       msg_sender_username m = JStr a →
       msg_receiver_username m = JStr b → b ≠ "" →
       type ≠ JStr "global" →
       MessageRow r ∈
         history_rows type (JStr b) (JStr a) (db (run (run init evs).1 evs').1) ∧
       MessageRow r ∈
         history_rows type (JStr a) (JStr b) (db (run (run init evs).1 evs').1)) ∧
    (∀ us fs pending rs,
       ∃ r', message_content r' = message_content r ∧
         r' ∈ messages (msgs (http_store
                 (http_run
                    (Http (Store us fs (db (run (run init evs).1 evs').1)) pending)
                    rs)))).
Proof.
  intros Hin. destruct (packet_row _ _ _ _ _ Hin) as (i & Hi & Hrow).
  destruct (messages_run (run init evs).1 evs') as [rest Hrest].
  match type of Hrow with ?r ∈ _ => exists r end.
  split; [exact Hi|].
  assert (Hlater : ∀ r, r ∈ messages (db (run init evs).1) →
                        r ∈ messages (db (run (run init evs).1 evs').1)).
  { intros r Hr. rewrite Hrest. apply elem_of_app. by left. }
  split; [by apply Hlater|]. split; [|split].
  - intros Hfalsy mate me. apply elem_of_history_rows_global; [by apply Hlater|].
    cbn. unfold js_or. by rewrite Hfalsy.
  - intros a b type Ha Hb Hne Htype.
    assert (Hrecv : to_sql (js_or (msg_receiver_username m) JNull) = Some b).
    { rewrite Hb. unfold js_or. cbn. by destruct b. }
    split; (apply elem_of_history_rows_direct; [by apply Hlater | done |]);
      unfold between; cbn; rewrite Ha, Hrecv; cbn; auto.
  - intros us fs pending rs.
    pose proof (http_run_content
      (Http (Store us fs (db (run (run init evs).1 evs').1)) pending) rs) as Hc.
    cbn [http_store msgs] in Hc.
    match type of Hrow with ?r ∈ _ =>
      assert (Hmem : message_content r ∈ message_content <$>
                messages (db (run (run init evs).1 evs').1))
        by (apply list_elem_of_fmap; exists r; split; [done | by apply Hlater])
    end.
    rewrite <- Hc in Hmem.
    apply list_elem_of_fmap in Hmem as (r' & Hr' & Hin').
    exists r'. by split.
Qed.

Lemma delivered_message_in_history_witness :
  ∃ r, Some 1 = Some (id r) ∧
    r ∈ messages (db (run (reply_due bob) [Disconnect 1]).1).
Proof.
  destruct (delivered_message_in_history
    [Connection 1; Connection 2; Connection 3;
     Join 1 alice; Join 2 bob; Join 3 carol;
     SendMessage 1 (hi_to bob) morning; PgExec 0 None]
    [Disconnect 1] (PgReply 0) 1 "receiveMessage"
    (Message (Some 1) (JStr "hi") alice bob "09:05" (JStr "text") JNull))
    as (r & Hid & Hr & _).
  - vm_compute. apply list_elem_of_further, list_elem_of_here.
  - exists r. split; [exact Hid | exact Hr].
Defined.
